(** * The five-card poker-hand classifier of [task/11-katas-2-tasks.js]

    A shallow embedding of [getPokerHandRank] and of the JavaScript
    operations it is written with (string and array [slice], [indexOf],
    [join], frequency objects built by [reduce], [Object.keys], [find],
    [filter]), followed by the properties of the classifier. *)

From Stdlib Require Import String Ascii List NArith ZArith Bool Arith Lia.
From Stdlib Require Import Permutation Sorted.
Import ListNotations.

Set Implicit Arguments.

(** ** JavaScript values used by the classifier *)

Module JS.

(** A JavaScript string is a sequence of UTF-16 code units.  The rank
    symbols are ASCII; each suit glyph is one code unit of the Basic
    Multilingual Plane. *)
Definition jsstring := list N.

(** An ASCII string literal, as a JavaScript string. *)
Definition lit (s : string) : jsstring :=
  map N_of_ascii (list_ascii_of_string s).

(** [a === b] on strings. *)
Fixpoint streq (a b : jsstring) : bool :=
  match a, b with
  | [], [] => true
  | x :: a', y :: b' => N.eqb x y && streq a' b'
  | _, _ => false
  end.

(** The relative index of [slice]: a negative argument counts from the
    end, and every argument is clamped to [0 .. len]. *)
Definition rel_index (len : nat) (i : Z) : nat :=
  if (i <? 0)%Z then Z.to_nat (Z.max (Z.of_nat len + i) 0)
  else Nat.min (Z.to_nat i) len.

(** [l.slice(s, e)], for arrays and for strings. *)
Definition slice {A : Type} (l : list A) (s e : Z) : list A :=
  let k := rel_index (length l) s in
  let final := rel_index (length l) e in
  firstn (final - k) (skipn k l).

(** [l.slice(s)]: the end defaults to the length. *)
Definition slice_from {A : Type} (l : list A) (s : Z) : list A :=
  skipn (rel_index (length l) s) l.

Fixpoint indexOf_from (l : list jsstring) (x : jsstring) (i : Z) : Z :=
  match l with
  | [] => (-1)%Z
  | y :: l' => if streq y x then i else indexOf_from l' x (i + 1)%Z
  end.

(** [l.indexOf(v)] on an array of strings; [None] is [undefined], which
    is strictly equal to no string. *)
Definition indexOf (l : list jsstring) (v : option jsstring) : Z :=
  match v with
  | None => (-1)%Z
  | Some x => indexOf_from l x 0%Z
  end.

(** [l.join('')]. *)
Definition join (l : list jsstring) : jsstring := concat l.

(** An object used as a frequency table: its own properties in creation
    order.  The keys the classifier stores are one-code-unit suits and
    canonical ranks, none of which names a property of [Object.prototype],
    so the own properties are all that a lookup can see. *)
Definition object := list (jsstring * nat).

(** [o[k]]; [None] is [undefined]. *)
Fixpoint get (o : object) (k : jsstring) : option nat :=
  match o with
  | [] => None
  | (k', v) :: o' => if streq k' k then Some v else get o' k
  end.

(** [{ ...o, [k]: v }]: an existing key keeps its place, a new key goes
    last. *)
Fixpoint set (o : object) (k : jsstring) (v : nat) : object :=
  match o with
  | [] => [(k, v)]
  | (k', v') :: o' =>
      if streq k' k then (k', v) :: o' else (k', v') :: set o' k v
  end.

(** [v || 0] on a number or [undefined]. *)
Definition or0 (v : option nat) : nat :=
  match v with
  | Some n => n
  | None => 0
  end.

(** [v === n] on a number or [undefined]. *)
Definition eq_num (v : option nat) (n : nat) : bool :=
  match v with
  | Some m => Nat.eqb m n
  | None => false
  end.

(** The value of a decimal digit. *)
Definition digit (u : N) : option N :=
  if (N.leb 48 u && N.leb u 57)%bool then Some (u - 48)%N else None.

Fixpoint numeral (s : jsstring) (acc : N) : option N :=
  match s with
  | [] => Some acc
  | u :: s' =>
      match digit u with
      | Some d => numeral s' (10 * acc + d)%N
      | None => None
      end
  end.

(** A key is an array index when it is the canonical decimal numeral of an
    integer below [2^32 - 1]. *)
Definition array_index (k : jsstring) : option N :=
  match k with
  | [] => None
  | u :: rest =>
      if (N.eqb u 48 && negb (Nat.eqb (length rest) 0))%bool then None
      else match numeral k 0 with
           | Some n => if N.ltb n 4294967295 then Some n else None
           | None => None
           end
  end.

Fixpoint insert_index (e : N * jsstring) (l : list (N * jsstring))
  : list (N * jsstring) :=
  match l with
  | [] => [e]
  | e' :: l' =>
      if N.leb (fst e) (fst e') then e :: l else e' :: insert_index e l'
  end.

Definition index_keys (ks : list jsstring) : list (N * jsstring) :=
  flat_map (fun k => match array_index k with
                     | Some n => [(n, k)]
                     | None => []
                     end) ks.

Definition is_name (k : jsstring) : bool :=
  match array_index k with
  | Some _ => false
  | None => true
  end.

(** [Object.keys(o)]: the array-index keys in ascending numeric order,
    then the other keys in creation order. *)
Definition keys (o : object) : list jsstring :=
  let ks := map fst o in
  map snd (fold_right insert_index [] (index_keys ks)) ++ filter is_name ks.

(** [!!v] on a string or [undefined]: only the empty string and
    [undefined] are falsy. *)
Definition truthy_str (v : option jsstring) : bool :=
  match v with
  | Some (_ :: _) => true
  | _ => false
  end.

(** Truthiness of a number. *)
Definition truthy_num (n : nat) : bool := negb (Nat.eqb n 0).

(** [a.pop()]: the last element, [None] ([undefined]) for an empty array,
    and the array that is left. *)
Definition pop {A : Type} (a : list A) : option A * list A :=
  match rev a with
  | [] => (None, [])
  | x :: r => (Some x, rev r)
  end.

(** [s.split(sep)] for a separator of one code unit: the pieces between
    the occurrences of [sep]; the empty string splits into one empty
    piece. *)
Fixpoint split_on (sep : N) (s : jsstring) : list jsstring :=
  match s with
  | [] => [[]]
  | u :: s' =>
      if N.eqb u sep then [] :: split_on sep s'
      else match split_on sep s' with
           | w :: ws => (u :: w) :: ws
           | [] => [[u]]
           end
  end.

(** An array element as [join] prints it: [undefined] is printed as the
    empty string. *)
Definition str_of (v : option jsstring) : jsstring :=
  match v with
  | Some s => s
  | None => []
  end.

(** [a.join(sep)] for a separator of one code unit, on an array of strings
    and [undefined]s. *)
Fixpoint join_with (sep : N) (a : list (option jsstring)) : jsstring :=
  match a with
  | [] => []
  | [v] => str_of v
  | v :: a' => str_of v ++ sep :: join_with sep a'
  end.

(** The space character. *)
Definition space : N := 32.

End JS.

Import JS.

(** ** The classifier *)

Module PokerRank.
Definition StraightFlush : Z := 8.
Definition FourOfKind : Z := 7.
Definition FullHouse : Z := 6.
Definition Flush : Z := 5.
Definition Straight : Z := 4.
Definition ThreeOfKind : Z := 3.
Definition TwoPairs : Z := 2.
Definition OnePair : Z := 1.
Definition HighCard : Z := 0.
End PokerRank.

Definition ranks : list jsstring :=
  map lit ["2"; "3"; "4"; "5"; "6"; "7"; "8"; "9"; "10"; "J"; "Q"; "K"; "A"]%string.

Definition getRank (card : jsstring) : jsstring := slice card 0 (-1).
Definition getSuit (card : jsstring) : jsstring := slice_from card (-1).

(** The frequency table built by
    [reduce((p, c) => ({ ...p, [c]: (p[c] || 0) + 1 }), {})]. *)
Definition tally (l : list jsstring) : object :=
  fold_left (fun previousValue currentValue =>
               set previousValue currentValue
                   (or0 (get previousValue currentValue) + 1))
            l [].

Section GetPokerHandRank.

Variable hand : list jsstring.

(** The nested loops over [ranks] and [hand], pushing onto [sH]. *)
Definition sortedHand : list jsstring :=
  fold_left
    (fun sH rank =>
       fold_left
         (fun sH card => if streq rank (getRank card) then sH ++ [card] else sH)
         hand sH)
    ranks [].

(** The loop over [sortedHand] pushing onto [rankArray] and [suitArray]. *)
Definition arrays : list jsstring * list jsstring :=
  fold_left
    (fun '(rankArray, suitArray) card =>
       (rankArray ++ [getRank card], suitArray ++ [getSuit card]))
    sortedHand ([], []).

Definition rankArray : list jsstring := fst arrays.
Definition suitArray : list jsstring := snd arrays.

Definition countSuites : object := tally suitArray.
Definition countRanks : object := tally rankArray.

Definition isFlush : bool :=
  truthy_str (find (fun key => eq_num (get countSuites key) 5) (keys countSuites)).

Definition section : jsstring := join rankArray.

Definition ref : jsstring :=
  let index := indexOf ranks (nth_error rankArray 0) in
  join (slice ranks index (index + 5)).

Definition isStraight : bool :=
  streq section (lit "AKQJ10") || streq section (lit "2345A") || streq section ref.

Definition isFourOfKind : nat :=
  length (filter (fun key => eq_num (get countRanks key) 4) (keys countRanks)).

Definition isThreeOfKind : nat :=
  length (filter (fun key => eq_num (get countRanks key) 3) (keys countRanks)).

Definition isPairs : nat :=
  length (filter (fun key => eq_num (get countRanks key) 2) (keys countRanks)).

Definition getPokerHandRank : Z :=
  if isStraight && isFlush then PokerRank.StraightFlush
  else if truthy_num isFourOfKind then PokerRank.FourOfKind
  else if truthy_num isThreeOfKind && Nat.eqb isPairs 1 then PokerRank.FullHouse
  else if isFlush then PokerRank.Flush
  else if isStraight then PokerRank.Straight
  else if truthy_num isThreeOfKind then PokerRank.ThreeOfKind
  else if Nat.eqb isPairs 2 then PokerRank.TwoPairs
  else if Nat.eqb isPairs 1 then PokerRank.OnePair
  else PokerRank.HighCard.

End GetPokerHandRank.

(** ** Text wrapping *)

(** The [while] loop of [wrapText], over the words in the order in which
    [pop] hands them out; the result is the sequence of yielded values,
    the last one being the [yield] that follows the loop. *)
Fixpoint wrapWords (columns : Z) (todo : list jsstring) (phrase : option jsstring)
  : list (option jsstring) :=
  match todo with
  | [] => [phrase]
  | ph :: todo' =>
      let joined := join_with space [phrase; Some ph] in
      if (Z.of_nat (length joined) <=? columns)%Z
      then wrapWords columns todo' (Some joined)
      else phrase :: wrapWords columns todo' (Some ph)
  end.

(** [while (phrases.length) { const ph = phrases.pop() ... }]: the array
    is emptied from its last element to its first. *)
Definition wrapLoop (columns : Z) (phrases : list jsstring)
  (phrase : option jsstring) : list (option jsstring) :=
  wrapWords columns (rev phrases) phrase.

(** The sequence of values that the generator [wrapText(text, columns)]
    yields, for a whole number of columns. *)
Definition wrapText (text : jsstring) (columns : Z) : list (option jsstring) :=
  let phrases := rev (split_on space text) in
  let '(phrase, phrases) := pop phrases in
  wrapLoop columns phrases phrase.

(** ** Cards of the examples *)

Definition spade : N := 9824.
Definition club : N := 9827.
Definition heart : N := 9829.
Definition diamond : N := 9830.

(** The card with rank [r] and suit glyph [s], as the token [r ++ s]. *)
Definition card (r : string) (s : N) : jsstring := lit r ++ [s].


(** ** Notions used to state the properties *)

Definition jsstring_eq_dec : forall a b : jsstring, {a = b} + {a <> b} :=
  list_eq_dec N.eq_dec.

(** The number of occurrences of [k] in [l]. *)
Definition occ (l : list jsstring) (k : jsstring) : nat :=
  count_occ jsstring_eq_dec l k.

(** What a frequency table holds for a key that occurs [n] times. *)
Definition held (n : nat) : option nat :=
  match n with
  | 0 => None
  | S _ => Some n
  end.

(** The sum of the counts of a frequency table. *)
Definition total (o : object) : nat := list_sum (map snd o).

(** A list of ranks rearranged in canonical order: each canonical rank, in
    turn, as many times as it occurs. *)
Definition canon (l : list jsstring) : list jsstring :=
  flat_map (fun r => repeat r (occ l r)) ranks.

(** A card token whose rank part is one of the thirteen canonical ranks. *)
Definition known_rank (card : jsstring) : bool :=
  existsb (fun r => streq r (getRank card)) ranks.

(** The position of a rank in [ranks], [-1] for a string that is no
    canonical rank. *)
Definition rank_index (r : jsstring) : Z := indexOf ranks (Some r).

(** The sorted rank sequence of the wheel, and the sequence spelled by the
    literal ['AKQJ10']. *)
Definition wheel : list jsstring := map lit ["2"; "3"; "4"; "5"; "A"]%string.
Definition akqj10 : list jsstring := map lit ["A"; "K"; "Q"; "J"; "10"]%string.

(** [isStraight] with its first disjunct removed. *)
Definition isStraight_without_AKQJ10 (hand : list jsstring) : bool :=
  streq (section hand) (lit "2345A") || streq (section hand) (ref hand).

(** The four suit glyphs, as one-code-unit strings. *)
Definition suits : list jsstring := [[spade]; [heart]; [diamond]; [club]].

Definition known_suit (card : jsstring) : bool :=
  existsb (fun s => streq s (getSuit card)) suits.

(** Five tokens whose rank parts are canonical ranks. *)
Definition five_ranked (hand : list jsstring) : Prop :=
  length hand = 5 /\ Forall (fun c => known_rank c = true) hand.

(** A structurally valid hand: five tokens, each a canonical rank followed
    by one of the four suit glyphs.  Distinctness of the cards is not
    asked for. *)
Definition valid_hand (hand : list jsstring) : Prop :=
  length hand = 5 /\
  Forall (fun c => known_rank c = true /\ known_suit c = true) hand.

(** Ascending canonical order on ranks. *)
Definition rank_le (a b : jsstring) : Prop := (rank_index a <= rank_index b)%Z.

(** The hands of the examples. *)
Definition straight_2_6 : list jsstring :=
  [card "2" spade; card "3" heart; card "4" heart; card "5" heart;
   card "6" heart].
Definition wheel_flush : list jsstring :=
  [card "A" spade; card "4" spade; card "3" spade; card "5" spade;
   card "2" spade].
Definition wheel_mixed : list jsstring :=
  [card "2" heart; card "4" diamond; card "5" heart; card "A" diamond;
   card "3" spade].
Definition full_house : list jsstring :=
  [card "4" club; card "4" diamond; card "5" diamond; card "5" spade;
   card "5" heart].
Definition three_of_kind : list jsstring :=
  [card "2" heart; card "2" spade; card "2" diamond; card "7" heart;
   card "A" heart].
Definition flush_to_queen : list jsstring :=
  [card "4" club; card "5" club; card "6" club; card "7" club; card "Q" club].

(** The examples of the documentation comment of [getPokerHandRank], each
    with the constant it announces. *)
Definition doc_examples : list (list jsstring * Z) :=
  [ ([card "4" heart; card "5" heart; card "6" heart; card "7" heart;
      card "8" heart], PokerRank.StraightFlush);
    (wheel_flush, PokerRank.StraightFlush);
    ([card "4" club; card "4" diamond; card "4" heart; card "4" spade;
      card "10" heart], PokerRank.FourOfKind);
    (full_house, PokerRank.FullHouse);
    (flush_to_queen, PokerRank.Flush);
    (straight_2_6, PokerRank.Straight);
    (wheel_mixed, PokerRank.Straight);
    (three_of_kind, PokerRank.ThreeOfKind);
    ([card "2" heart; card "4" diamond; card "4" heart; card "A" diamond;
      card "A" spade], PokerRank.TwoPairs);
    ([card "3" heart; card "4" heart; card "10" heart; card "3" diamond;
      card "A" spade], PokerRank.OnePair);
    ([card "A" heart; card "K" heart; card "Q" heart; card "2" diamond;
      card "3" spade], PokerRank.HighCard) ].

(** A hand with a token whose rank part, ["1"], is no canonical rank. *)
Definition hand_with_1 : list jsstring :=
  [card "1" spade; card "J" spade; card "Q" spade; card "K" spade;
   card "A" spade].

(** A hand with a token whose suit part, ["x"], is no suit glyph. *)
Definition hand_with_x : list jsstring :=
  [card "2" 120%N; card "3" heart; card "4" heart; card "5" heart;
   card "6" heart].

(** A category test: a predicate on hands with the constant returned when
    it holds. *)
Definition category : Type := ((list jsstring -> bool) * Z)%type.

(** The nine tests of [getPokerHandRank], in the order it makes them. *)
Definition categories : list category :=
  [ (fun h => isStraight h && isFlush h, PokerRank.StraightFlush);
    (fun h => truthy_num (isFourOfKind h), PokerRank.FourOfKind);
    (fun h => truthy_num (isThreeOfKind h) && Nat.eqb (isPairs h) 1,
     PokerRank.FullHouse);
    (fun h => isFlush h, PokerRank.Flush);
    (fun h => isStraight h, PokerRank.Straight);
    (fun h => truthy_num (isThreeOfKind h), PokerRank.ThreeOfKind);
    (fun h => Nat.eqb (isPairs h) 2, PokerRank.TwoPairs);
    (fun h => Nat.eqb (isPairs h) 1, PokerRank.OnePair);
    (fun _ => true, PokerRank.HighCard) ].

(** The nine tests as the specification words them: [fours == 1],
    [threes == 1 /\ pairs == 1] and [threes == 1] where the code tests
    that a number is not zero. *)
Definition spec_categories : list category :=
  [ (fun h => isStraight h && isFlush h, PokerRank.StraightFlush);
    (fun h => Nat.eqb (isFourOfKind h) 1, PokerRank.FourOfKind);
    (fun h => Nat.eqb (isThreeOfKind h) 1 && Nat.eqb (isPairs h) 1,
     PokerRank.FullHouse);
    (fun h => isFlush h, PokerRank.Flush);
    (fun h => isStraight h, PokerRank.Straight);
    (fun h => Nat.eqb (isThreeOfKind h) 1, PokerRank.ThreeOfKind);
    (fun h => Nat.eqb (isPairs h) 2, PokerRank.TwoPairs);
    (fun h => Nat.eqb (isPairs h) 1, PokerRank.OnePair);
    (fun _ => true, PokerRank.HighCard) ].

(** The constant of the first test of [cs] that holds of [hand]. *)
Definition first_match (cs : list category) (hand : list jsstring) : option Z :=
  option_map snd (find (fun c => fst c hand) cs).

(** Precedence: a test placed earlier carries a greater constant. *)
Definition precedes (a b : category) : Prop := (snd b < snd a)%Z.

(** The number of canonical ranks of which the hand holds exactly [n]
    cards. *)
Definition ranks_held (n : nat) (hand : list jsstring) : nat :=
  length (filter (fun r => Nat.eqb (occ (map getRank hand) r) n) ranks).

(** The token [card] with the code unit of its suit part replaced by its
    image under [f]. *)
Definition resuit (f : N -> N) (card : jsstring) : jsstring :=
  getRank card ++ map f (getSuit card).

(** The first word of a line. *)
Definition first_word (line : jsstring) : jsstring :=
  hd [] (split_on space line).

(** The text of the first example of the documentation of [wrapText]. *)
Definition wrap_example : jsstring :=
  lit "The String global object is a constructor for strings, or a sequence of characters.".

(** ** Facts about the JavaScript operations *)

Lemma streq_eq (a b : jsstring) : streq a b = true <-> a = b.
Proof.
  revert b; induction a as [|x a IH]; intros [|y b]; simpl;
    split; try congruence; try discriminate.
  - rewrite andb_true_iff, N.eqb_eq, IH. intros [-> ->]; reflexivity.
  - intros H; injection H as -> ->. rewrite N.eqb_refl; simpl.
    apply IH; reflexivity.
Qed.

Lemma streq_refl (a : jsstring) : streq a a = true.
Proof. apply streq_eq; reflexivity. Qed.

Lemma streq_neq (a b : jsstring) : a <> b -> streq a b = false.
Proof.
  intros H. destruct (streq a b) eqn:E; [|reflexivity].
  apply streq_eq in E; contradiction.
Qed.

Lemma streq_spec (a b : jsstring) : reflect (a = b) (streq a b).
Proof. apply iff_reflect; symmetry; apply streq_eq. Qed.

Lemma get_set_same (o : object) k v : get (set o k v) k = Some v.
Proof.
  induction o as [|[k' v'] o IH]; simpl.
  - rewrite streq_refl; reflexivity.
  - destruct (streq k' k) eqn:E; simpl; rewrite E; auto.
Qed.

Lemma get_set_other (o : object) k k' v :
  k <> k' -> get (set o k v) k' = get o k'.
Proof.
  intros Hne. induction o as [|[k0 v0] o IH]; simpl.
  - rewrite streq_neq; auto.
  - destruct (streq_spec k0 k) as [->|Hk]; simpl.
    + rewrite streq_neq; auto.
    + rewrite IH; reflexivity.
Qed.

Lemma get_None_iff (o : object) k : get o k = None <-> ~ In k (map fst o).
Proof.
  induction o as [|[k' v'] o IH]; simpl.
  - tauto.
  - destruct (streq_spec k' k) as [->|Hk].
    + split; [discriminate | tauto].
    + rewrite IH; tauto.
Qed.

Lemma keys_set (o : object) k v :
  map fst (set o k v) =
  match get o k with
  | Some _ => map fst o
  | None => map fst o ++ [k]
  end.
Proof.
  induction o as [|[k' v'] o IH]; simpl; [reflexivity|].
  destruct (streq k' k); simpl; [reflexivity|].
  rewrite IH; destruct (get o k); reflexivity.
Qed.

Lemma total_set_incr (o : object) k :
  total (set o k (or0 (get o k) + 1)) = total o + 1.
Proof.
  unfold total. induction o as [|[k' v'] o IH]; simpl; [reflexivity|].
  destruct (streq k' k); simpl; lia.
Qed.

Lemma get_entry (o : object) k v :
  NoDup (map fst o) -> In (k, v) o -> get o k = Some v.
Proof.
  induction o as [|[k' v'] o IH]; simpl; intros Hnd Hin; [contradiction|].
  inversion Hnd as [|? ? Hnotin Hnd']; subst.
  destruct Hin as [Heq|Hin].
  - injection Heq as -> ->. rewrite streq_refl; reflexivity.
  - destruct (streq_spec k' k) as [->|Hk]; [|auto].
    exfalso; apply Hnotin. apply (in_map fst) in Hin; exact Hin.
Qed.

(** *** Frequency tables *)

Lemma tally_snoc (l : list jsstring) x :
  tally (l ++ [x]) = set (tally l) x (or0 (get (tally l) x) + 1).
Proof. unfold tally; rewrite fold_left_app; reflexivity. Qed.

Lemma get_tally (l : list jsstring) k : get (tally l) k = held (occ l k).
Proof.
  unfold occ. induction l as [|x l IH] using rev_ind; [reflexivity|].
  rewrite tally_snoc, count_occ_app; simpl.
  destruct (jsstring_eq_dec x k) as [->|Hne].
  - rewrite get_set_same, IH.
    destruct (count_occ jsstring_eq_dec l k); simpl; [reflexivity|].
    rewrite !Nat.add_1_r; reflexivity.
  - rewrite get_set_other, IH, Nat.add_0_r by assumption; reflexivity.
Qed.

Lemma in_keys_tally (l : list jsstring) k : In k (map fst (tally l)) <-> In k l.
Proof.
  rewrite (count_occ_In jsstring_eq_dec l k). fold (occ l k).
  pose proof (get_None_iff (tally l) k) as H.
  rewrite get_tally in H.
  destruct (occ l k); simpl in H.
  - split; [|lia]. intros Hin. exfalso. apply H; auto.
  - split; [lia|]. intros _.
    destruct (in_dec jsstring_eq_dec k (map fst (tally l))) as [|Hn];
      [assumption|].
    apply H in Hn; discriminate.
Qed.

Lemma NoDup_keys_tally (l : list jsstring) : NoDup (map fst (tally l)).
Proof.
  induction l as [|x l IH] using rev_ind; [constructor|].
  rewrite tally_snoc, keys_set.
  destruct (get (tally l) x) eqn:E; [assumption|].
  apply get_None_iff in E.
  apply NoDup_rev in IH. rewrite <- (rev_involutive (_ ++ _)).
  apply NoDup_rev. rewrite rev_app_distr; simpl.
  constructor; [rewrite <- in_rev; assumption | assumption].
Qed.

Lemma total_tally (l : list jsstring) : total (tally l) = length l.
Proof.
  induction l as [|x l IH] using rev_ind; [reflexivity|].
  rewrite tally_snoc, total_set_incr, IH, length_app; reflexivity.
Qed.

(** *** [Object.keys] *)

Lemma filter_Permutation {A : Type} (f : A -> bool) (l l' : list A) :
  Permutation l l' -> Permutation (filter f l) (filter f l').
Proof.
  induction 1 as [|x l l' _ IH|x y l|l l' l'' _ IH1 _ IH2]; simpl.
  - constructor.
  - destruct (f x); auto.
  - destruct (f x), (f y); auto using perm_swap.
  - eauto using Permutation_trans.
Qed.

Lemma insert_index_perm e l : Permutation (insert_index e l) (e :: l).
Proof.
  induction l as [|e' l IH]; simpl; [auto|].
  destruct (N.leb (fst e) (fst e')); [auto|].
  rewrite IH. apply perm_swap.
Qed.

Lemma sort_index_perm l : Permutation (fold_right insert_index [] l) l.
Proof.
  induction l as [|e l IH]; simpl; [auto|].
  rewrite insert_index_perm; auto.
Qed.

Lemma index_keys_split ks :
  Permutation (map snd (index_keys ks) ++ filter is_name ks) ks.
Proof.
  unfold index_keys, is_name.
  induction ks as [|k ks IH]; simpl; [auto|].
  destruct (array_index k); simpl.
  - auto.
  - symmetry. apply Permutation_cons_app. symmetry; exact IH.
Qed.

Lemma keys_perm (o : object) : Permutation (keys o) (map fst o).
Proof.
  unfold keys.
  rewrite (Permutation_map snd (sort_index_perm (index_keys (map fst o)))).
  apply index_keys_split.
Qed.

Lemma length_keys (o : object) : length (keys o) = length o.
Proof. rewrite (Permutation_length (keys_perm o)). apply length_map. Qed.

Lemma in_keys (o : object) k : In k (keys o) <-> In k (map fst o).
Proof.
  split; apply Permutation_in; [|symmetry]; apply keys_perm.
Qed.

Lemma NoDup_keys (o : object) : NoDup (map fst o) -> NoDup (keys o).
Proof. apply Permutation_NoDup. symmetry; apply keys_perm. Qed.

(** Counting the keys that hold [n] is counting the entries that hold [n]. *)
Lemma count_keys (o : object) (n : nat) :
  NoDup (map fst o) ->
  length (filter (fun key => eq_num (get o key) n) (keys o)) =
  length (filter (fun e => Nat.eqb (snd e) n) o).
Proof.
  intros Hnd.
  rewrite (Permutation_length (filter_Permutation _ (keys_perm o))).
  assert (H : forall o', incl o' o ->
    length (filter (fun key => eq_num (get o key) n) (map fst o')) =
    length (filter (fun e => Nat.eqb (snd e) n) o')).
  { induction o' as [|[k v] o' IH]; intros Hincl; simpl; [reflexivity|].
    rewrite (get_entry o k v Hnd) by (apply Hincl; left; reflexivity).
    assert (Hi : incl o' o) by (intros e He; apply Hincl; right; exact He).
    simpl. destruct (Nat.eqb v n); simpl; rewrite (IH Hi); reflexivity. }
  apply H, incl_refl.
Qed.

(** Four cards for every key holding 4, three for every key holding 3 and
    two for every key holding 2 are all among the cards counted. *)
Lemma weight_le_total (o : object) :
  4 * length (filter (fun e => Nat.eqb (snd e) 4) o) +
  3 * length (filter (fun e => Nat.eqb (snd e) 3) o) +
  2 * length (filter (fun e => Nat.eqb (snd e) 2) o) <= total o.
Proof.
  unfold total. induction o as [|[k v] o IH]; simpl; [lia|].
  destruct (Nat.eqb_spec v 4), (Nat.eqb_spec v 3), (Nat.eqb_spec v 2);
    simpl; lia.
Qed.

(** ** The documented examples *)

Example doc_examples_hold :
  Forall (fun e => getPokerHandRank (fst e) = snd e) doc_examples.
Proof. repeat constructor. Qed.

(** ** The sorting stage *)

Lemma NoDup_ranks : NoDup ranks.
Proof.
  apply (NoDup_count_occ' jsstring_eq_dec). intros r Hr.
  cbv in Hr. repeat (destruct Hr as [<-|Hr]; [reflexivity|]). contradiction.
Qed.

Lemma push_loop (p : jsstring -> bool) (h acc : list jsstring) :
  fold_left (fun sH card => if p card then sH ++ [card] else sH) h acc =
  acc ++ filter p h.
Proof.
  revert acc; induction h as [|c h IH]; intros acc; simpl.
  - rewrite app_nil_r; reflexivity.
  - rewrite IH. destruct (p c); [rewrite <- app_assoc|]; reflexivity.
Qed.

Lemma rank_loop (hand rs acc : list jsstring) :
  fold_left
    (fun sH rank =>
       fold_left
         (fun sH card => if streq rank (getRank card) then sH ++ [card] else sH)
         hand sH)
    rs acc =
  acc ++ flat_map (fun r => filter (fun c => streq r (getRank c)) hand) rs.
Proof.
  revert acc; induction rs as [|r rs IH]; intros acc; simpl.
  - rewrite app_nil_r; reflexivity.
  - rewrite (push_loop (fun c => streq r (getRank c))), IH, app_assoc.
    reflexivity.
Qed.

(** The nested loops collect, rank by rank, the cards of that rank. *)
Lemma sortedHand_eq (hand : list jsstring) :
  sortedHand hand =
  flat_map (fun r => filter (fun c => streq r (getRank c)) hand) ranks.
Proof. unfold sortedHand. rewrite rank_loop. reflexivity. Qed.

Lemma arrays_loop (l ra sa : list jsstring) :
  fold_left
    (fun '(rankArray, suitArray) card =>
       (rankArray ++ [getRank card], suitArray ++ [getSuit card]))
    l (ra, sa) =
  (ra ++ map getRank l, sa ++ map getSuit l).
Proof.
  revert ra sa; induction l as [|c l IH]; intros ra sa; simpl.
  - rewrite !app_nil_r; reflexivity.
  - rewrite IH, <- !app_assoc; reflexivity.
Qed.

Lemma arrays_eq (hand : list jsstring) :
  arrays hand = (map getRank (sortedHand hand), map getSuit (sortedHand hand)).
Proof. unfold arrays. rewrite arrays_loop. reflexivity. Qed.

Lemma rankArray_eq (hand : list jsstring) :
  rankArray hand = map getRank (sortedHand hand).
Proof. unfold rankArray; rewrite arrays_eq; reflexivity. Qed.

Lemma suitArray_eq (hand : list jsstring) :
  suitArray hand = map getSuit (sortedHand hand).
Proof. unfold suitArray; rewrite arrays_eq; reflexivity. Qed.

Lemma map_flat_map {A B C : Type} (f : B -> C) (g : A -> list B) (l : list A) :
  map f (flat_map g l) = flat_map (fun x => map f (g x)) l.
Proof.
  induction l as [|x l IH]; simpl; [reflexivity|].
  rewrite map_app, IH; reflexivity.
Qed.

Lemma ranks_of_rank (hand : list jsstring) (r : jsstring) :
  map getRank (filter (fun c => streq r (getRank c)) hand) =
  repeat r (occ (map getRank hand) r).
Proof.
  unfold occ. induction hand as [|c h IH]; simpl; [reflexivity|].
  destruct (streq_spec r (getRank c)) as [Heq|Hne];
    destruct (jsstring_eq_dec (getRank c) r) as [He|He];
    simpl; congruence.
Qed.

(** [rankArray] is the hand's canonical ranks in canonical order; it
    depends on the hand only through the number of cards of each rank. *)
Lemma rankArray_canon (hand : list jsstring) :
  rankArray hand = canon (map getRank hand).
Proof.
  rewrite rankArray_eq, sortedHand_eq, map_flat_map. unfold canon.
  apply flat_map_ext. intros r. apply ranks_of_rank.
Qed.

Lemma filter_disjoint_perm {A : Type} (p q : A -> bool) (l : list A) :
  (forall x, p x = true -> q x = false) ->
  Permutation (filter p l ++ filter q l) (filter (fun x => p x || q x) l).
Proof.
  intros Hpq. induction l as [|x l IH]; simpl; [auto|].
  destruct (p x) eqn:Ep; simpl.
  - rewrite (Hpq x Ep). apply perm_skip, IH.
  - destruct (q x); [|exact IH].
    symmetry. apply Permutation_cons_app. symmetry; exact IH.
Qed.

Lemma sorted_by_perm (rs hand : list jsstring) :
  NoDup rs ->
  Permutation
    (flat_map (fun r => filter (fun c => streq r (getRank c)) hand) rs)
    (filter (fun c => existsb (fun r => streq r (getRank c)) rs) hand).
Proof.
  induction 1 as [|r rs Hnotin _ IH]; simpl.
  - induction hand; simpl; auto.
  - rewrite IH. apply filter_disjoint_perm.
    intros c Hc. apply streq_eq in Hc; subst r.
    destruct (existsb _ rs) eqn:E; [|reflexivity].
    apply existsb_exists in E. destruct E as [r [Hr E]].
    apply streq_eq in E; subst r; contradiction.
Qed.

(** [sortedHand] keeps exactly the cards whose rank is canonical. *)
Lemma sortedHand_perm (hand : list jsstring) :
  Permutation (sortedHand hand) (filter known_rank hand).
Proof. rewrite sortedHand_eq. apply sorted_by_perm, NoDup_ranks. Qed.

Lemma known_rank_iff (c : jsstring) : known_rank c = true <-> In (getRank c) ranks.
Proof.
  unfold known_rank. rewrite existsb_exists. split.
  - intros [r [Hr E]]. apply streq_eq in E; subst; exact Hr.
  - intros H. exists (getRank c). split; [exact H | apply streq_refl].
Qed.

Lemma filter_all {A : Type} (p : A -> bool) (l : list A) :
  Forall (fun x => p x = true) l -> filter p l = l.
Proof.
  induction 1 as [|x l Hx _ IH]; simpl; [reflexivity|].
  rewrite Hx, IH; reflexivity.
Qed.

(** *** Canonical order *)

Lemma in_firstn {A : Type} (n : nat) (l : list A) x : In x (firstn n l) -> In x l.
Proof.
  intros H. rewrite <- (firstn_skipn n l). apply in_or_app; left; exact H.
Qed.

Lemma in_skipn {A : Type} (n : nat) (l : list A) x : In x (skipn n l) -> In x l.
Proof.
  intros H. rewrite <- (firstn_skipn n l). apply in_or_app; right; exact H.
Qed.

Lemma in_slice {A : Type} (l : list A) s e x : In x (slice l s e) -> In x l.
Proof. unfold slice. intros H. eapply in_skipn, in_firstn, H. Qed.

Lemma in_canon (l : list jsstring) r : In r (canon l) -> In r ranks.
Proof.
  unfold canon. rewrite in_flat_map. intros [x [Hx Hr]].
  apply repeat_spec in Hr; subst; exact Hx.
Qed.

Lemma occ_grouped (n : jsstring -> nat) (rs : list jsstring) r :
  NoDup rs ->
  occ (flat_map (fun x => repeat x (n x)) rs) r = if in_dec jsstring_eq_dec r rs then n r else 0.
Proof.
  unfold occ. induction 1 as [|x rs Hnotin _ IH]; simpl; [reflexivity|].
  rewrite count_occ_app, IH.
  destruct (jsstring_eq_dec x r) as [->|Hne].
  - rewrite count_occ_repeat_eq by reflexivity.
    destruct (in_dec jsstring_eq_dec r rs); [contradiction|lia].
  - rewrite count_occ_repeat_neq by congruence.
    destruct (in_dec jsstring_eq_dec r rs); reflexivity.
Qed.

Lemma occ_canon (l : list jsstring) r : In r ranks -> occ (canon l) r = occ l r.
Proof.
  intros Hr. unfold canon. rewrite occ_grouped by apply NoDup_ranks.
  destruct (in_dec jsstring_eq_dec r ranks); [reflexivity|contradiction].
Qed.

Lemma flat_map_ext_on {A B : Type} (f g : A -> list B) (l : list A) :
  (forall x, In x l -> f x = g x) -> flat_map f l = flat_map g l.
Proof.
  induction l as [|x l IH]; intros H; simpl; [reflexivity|].
  rewrite (H x), IH; auto using in_eq, in_cons.
Qed.

(** Putting in canonical order a list that is in canonical order changes
    nothing. *)
Lemma canon_idem (l : list jsstring) : canon (canon l) = canon l.
Proof.
  unfold canon at 1 3. apply flat_map_ext_on.
  intros r Hr. rewrite occ_canon by exact Hr. reflexivity.
Qed.

Lemma rankArray_fixed (hand : list jsstring) :
  canon (rankArray hand) = rankArray hand.
Proof. rewrite rankArray_canon. apply canon_idem. Qed.

Lemma in_rankArray (hand : list jsstring) r : In r (rankArray hand) -> In r ranks.
Proof. rewrite rankArray_canon. apply in_canon. Qed.

(** When every rank of the list is canonical, [canon] rearranges it. *)
Lemma canon_perm (l : list jsstring) :
  Forall (fun r => In r ranks) l -> Permutation (canon l) l.
Proof.
  intros Hl. apply (Permutation_count_occ jsstring_eq_dec). intros r.
  fold (occ (canon l) r). fold (occ l r).
  destruct (in_dec jsstring_eq_dec r ranks) as [Hr|Hr].
  - apply occ_canon, Hr.
  - unfold occ.
    rewrite (proj1 (count_occ_not_In jsstring_eq_dec (canon l) r)).
    + symmetry. apply count_occ_not_In. intros Hin.
      rewrite Forall_forall in Hl. auto.
    + intros Hin. apply in_canon in Hin. contradiction.
Qed.

(** *** Reading a concatenation of ranks back *)

Ltac rank_cases H :=
  cbv in H; repeat (destruct H as [H|H]; [symmetry in H|]); [..|destruct H].

Lemma join_ranks_inj (l1 l2 : list jsstring) :
  Forall (fun r => In r ranks) l1 ->
  Forall (fun r => In r ranks) l2 ->
  join l1 = join l2 -> l1 = l2.
Proof.
  intros H1; revert l2.
  induction H1 as [|r1 l1 Hr1 _ IH]; intros l2 H2 E.
  - destruct H2 as [|r2 l2 Hr2 _]; [reflexivity|].
    rank_cases Hr2; subst r2; discriminate E.
  - destruct H2 as [|r2 l2 Hr2 H2].
    + rank_cases Hr1; subst r1; discriminate E.
    + unfold join in *.
      rank_cases Hr1; subst r1; rank_cases Hr2; subst r2;
        simpl in E; try discriminate E;
        (f_equal; apply (IH l2 H2); simpl; congruence).
Qed.

(** ** The straight test *)

Lemma section_eq_iff (hand l : list jsstring) :
  Forall (fun r => In r ranks) l ->
  streq (section hand) (join l) = true <-> rankArray hand = l.
Proof.
  intros Hl. rewrite streq_eq. unfold section. split.
  - apply join_ranks_inj; [|exact Hl].
    apply Forall_forall. intros r. apply in_rankArray.
  - intros ->; reflexivity.
Qed.

Lemma Forall_ranks_slice s e : Forall (fun r => In r ranks) (slice ranks s e).
Proof. apply Forall_forall. intros r. apply in_slice. Qed.

(** What the three string comparisons of [isStraight] say about
    [rankArray]. *)
Lemma isStraight_iff (hand : list jsstring) :
  isStraight hand = true <->
  rankArray hand = akqj10 \/ rankArray hand = wheel \/
  rankArray hand =
    slice ranks (indexOf ranks (nth_error (rankArray hand) 0))
                (indexOf ranks (nth_error (rankArray hand) 0) + 5).
Proof.
  unfold isStraight. rewrite !orb_true_iff.
  change (lit "AKQJ10") with (join akqj10).
  change (lit "2345A") with (join wheel).
  unfold ref.
  rewrite !section_eq_iff; [tauto| | |].
  - apply Forall_ranks_slice.
  - apply Forall_forall. intros r Hr. rank_cases Hr; subst r; cbv; tauto.
  - apply Forall_forall. intros r Hr. rank_cases Hr; subst r; cbv; tauto.
Qed.

Lemma rankArray_not_akqj10 (hand : list jsstring) : rankArray hand <> akqj10.
Proof.
  intros E. pose proof (rankArray_fixed hand) as F. rewrite E in F.
  vm_compute in F. discriminate F.
Qed.

Lemma sortedHand_all (hand : list jsstring) :
  Forall (fun c => known_rank c = true) hand ->
  Permutation (sortedHand hand) hand.
Proof.
  intros H. rewrite sortedHand_perm, (filter_all _ H). reflexivity.
Qed.

Lemma rankArray_perm (hand : list jsstring) :
  Forall (fun c => known_rank c = true) hand ->
  Permutation (rankArray hand) (map getRank hand).
Proof.
  intros H. rewrite rankArray_eq. apply Permutation_map, sortedHand_all, H.
Qed.

Lemma suitArray_perm (hand : list jsstring) :
  Forall (fun c => known_rank c = true) hand ->
  Permutation (suitArray hand) (map getSuit hand).
Proof.
  intros H. rewrite suitArray_eq. apply Permutation_map, sortedHand_all, H.
Qed.

Lemma length_rankArray (hand : list jsstring) :
  length (rankArray hand) = length (suitArray hand).
Proof. rewrite rankArray_eq, suitArray_eq, !length_map. reflexivity. Qed.

Lemma length_rankArray_le (hand : list jsstring) :
  length (rankArray hand) <= length hand.
Proof.
  rewrite rankArray_eq, length_map, (Permutation_length (sortedHand_perm hand)).
  apply filter_length_le.
Qed.

Lemma length_rankArray_all (hand : list jsstring) :
  Forall (fun c => known_rank c = true) hand ->
  length (rankArray hand) = length hand.
Proof.
  intros H. rewrite (Permutation_length (rankArray_perm H)). apply length_map.
Qed.

Lemma sorted_grouped (n : jsstring -> nat) (rs : list jsstring) :
  StronglySorted rank_le rs ->
  StronglySorted rank_le (flat_map (fun x => repeat x (n x)) rs).
Proof.
  induction 1 as [|x rs _ IH Hx]; simpl; [constructor|].
  induction (n x) as [|k IHk]; simpl; [exact IH|].
  constructor; [exact IHk|].
  apply Forall_app; split.
  - apply Forall_forall. intros y Hy. apply repeat_spec in Hy; subst y.
    unfold rank_le; lia.
  - apply Forall_forall. intros y Hy. apply in_flat_map in Hy.
    destruct Hy as [z [Hz Hy]]. apply repeat_spec in Hy; subst y.
    rewrite Forall_forall in Hx. auto.
Qed.

Lemma sorted_ranks : StronglySorted rank_le ranks.
Proof.
  unfold ranks; simpl.
  repeat (constructor; [|repeat (constructor; [cbv; try discriminate|])]).
  all: constructor.
Qed.

Lemma sorted_rankArray (hand : list jsstring) :
  StronglySorted rank_le (rankArray hand).
Proof. rewrite rankArray_canon. apply sorted_grouped, sorted_ranks. Qed.

Lemma rank_index_nth (r : jsstring) :
  In r ranks -> nth_error ranks (Z.to_nat (rank_index r)) = Some r.
Proof. intros Hr. rank_cases Hr; subst r; reflexivity. Qed.

Lemma rank_index_range (r : jsstring) :
  In r ranks -> (0 <= rank_index r < 13)%Z.
Proof. intros Hr. rank_cases Hr; subst r; cbv; (split; [discriminate|reflexivity]). Qed.

(** ** The straight test on five ranked cards *)

(** C10: the ['AKQJ10'] disjunct of [isStraight] never fires.  The ranks of
    [rankArray] are in canonical order, so their concatenation is never
    ["AKQJ10"], and [isStraight] with that disjunct removed returns the
    same boolean on every hand. *)
Theorem akqj10_disjunct_unreachable (hand : list jsstring) :
  streq (section hand) (lit "AKQJ10") = false /\
  isStraight hand = isStraight_without_AKQJ10 hand.
Proof.
  assert (H : streq (section hand) (lit "AKQJ10") = false).
  { destruct (streq (section hand) (lit "AKQJ10")) eqn:E; [|reflexivity].
    exfalso. apply (rankArray_not_akqj10 hand).
    change (lit "AKQJ10") with (join akqj10) in E.
    apply section_eq_iff in E; [exact E|].
    apply Forall_forall. intros r Hr. rank_cases Hr; subst r; cbv; tauto. }
  split; [exact H|].
  unfold isStraight, isStraight_without_AKQJ10. rewrite H. reflexivity.
Qed.

Lemma five_consecutive (a b c d e : jsstring) (i : Z) :
  In a ranks -> In b ranks -> In c ranks -> In d ranks -> In e ranks ->
  map rank_index [a; b; c; d; e] = [i; i + 1; i + 2; i + 3; i + 4]%Z ->
  (0 <= i <= 8)%Z /\
  [a; b; c; d; e] = slice ranks i (i + 5).
Proof.
  intros Ha Hb Hc Hd He E.
  simpl in E. injection E as Ea Eb Ec Ed Ee.
  pose proof (rank_index_range Ha) as Ra.
  pose proof (rank_index_range He) as Re.
  assert (Hi : (0 <= i <= 8)%Z) by lia.
  split; [exact Hi|].
  apply rank_index_nth in Ha, Hb, Hc, Hd, He.
  rewrite Ea in Ha. rewrite Eb in Hb. rewrite Ec in Hc.
  rewrite Ed in Hd. rewrite Ee in He. clear Ea Eb Ec Ed Ee Ra Re.
  assert (Hcases : (i = 0 \/ i = 1 \/ i = 2 \/ i = 3 \/ i = 4 \/ i = 5 \/
                    i = 6 \/ i = 7 \/ i = 8)%Z) by lia.
  repeat (destruct Hcases as [->|Hcases]);
    [..|subst i];
    vm_compute in Ha, Hb, Hc, Hd, He;
    injection Ha as <-; injection Hb as <-; injection Hc as <-;
    injection Hd as <-; injection He as <-; reflexivity.
Qed.

Lemma NoDup_slice {A : Type} (l : list A) s e : NoDup l -> NoDup (slice l s e).
Proof.
  unfold slice. intros H.
  rewrite <- (firstn_skipn (rel_index (length l) s) l) in H.
  apply NoDup_app_remove_l in H.
  rewrite <- (firstn_skipn (rel_index (length l) e - rel_index (length l) s)
                           (skipn (rel_index (length l) s) l)) in H.
  apply NoDup_app_remove_r in H. exact H.
Qed.

(** C2: on five cards with canonical ranks, [rankArray] is the hand's
    ranks in ascending canonical order, and the straight test holds exactly
    when their five indices are consecutive and ascending or the sequence
    is the wheel 2-3-4-5-A; a hand with a repeated rank is therefore no
    straight. *)
Theorem straight_test (hand : list jsstring) :
  five_ranked hand ->
  Permutation (rankArray hand) (map getRank hand) /\
  StronglySorted rank_le (rankArray hand) /\
  (isStraight hand = true <->
   (exists i : Z,
       map rank_index (rankArray hand) = [i; i + 1; i + 2; i + 3; i + 4]%Z) \/
   rankArray hand = wheel) /\
  (isStraight hand = true -> NoDup (map getRank hand)).
Proof.
  intros [Hlen Hall].
  pose proof (rankArray_perm Hall) as Hperm.
  pose proof (length_rankArray_all Hall) as Hl. rewrite Hlen in Hl.
  assert (Hiff : isStraight hand = true <->
   (exists i : Z,
       map rank_index (rankArray hand) = [i; i + 1; i + 2; i + 3; i + 4]%Z) \/
   rankArray hand = wheel).
  { rewrite isStraight_iff. split.
    - intros [E|[E|E]].
      + destruct (rankArray_not_akqj10 hand E).
      + right; exact E.
      + left. pose proof (@in_rankArray hand) as Hin.
        destruct (rankArray hand) as [|a l]; [discriminate Hl|].
        assert (Ha : In a ranks) by (apply Hin; left; reflexivity).
        clear Hin. exists (rank_index a).
        rank_cases Ha; subst a; vm_compute in E;
          injection E as ->; first [reflexivity | discriminate Hl].
    - intros [[i E]|E]; [|tauto]. right; right.
      pose proof (@in_rankArray hand) as Hin.
      destruct (rankArray hand) as [|a [|b [|c [|d [|e [|f l]]]]]];
        try discriminate Hl.
      destruct (@five_consecutive a b c d e i) as [Hi Es];
        try (apply Hin; simpl; tauto); [exact E|].
      rewrite Es.
      assert (Hcases : (i = 0 \/ i = 1 \/ i = 2 \/ i = 3 \/ i = 4 \/ i = 5 \/
                        i = 6 \/ i = 7 \/ i = 8)%Z) by lia.
      repeat (destruct Hcases as [->|Hcases]); [..|subst i]; reflexivity. }
  split; [exact Hperm|]. split; [apply sorted_rankArray|]. split; [exact Hiff|].
  intros Hs. apply (Permutation_NoDup Hperm).
  apply isStraight_iff in Hs. destruct Hs as [E|[E|E]].
  - destruct (rankArray_not_akqj10 hand E).
  - rewrite E. apply (NoDup_count_occ' jsstring_eq_dec). intros r Hr.
    rank_cases Hr; subst r; reflexivity.
  - rewrite E. apply NoDup_slice, NoDup_ranks.
Qed.

(** The hand 2 3 4 5 6 is five cards with canonical ranks and consecutive
    indices 0 to 4. *)
Lemma straight_test_witness :
  five_ranked straight_2_6 /\
  (isStraight straight_2_6 = true <->
   (exists i : Z,
       map rank_index (rankArray straight_2_6) =
       [i; i + 1; i + 2; i + 3; i + 4]%Z) \/
   rankArray straight_2_6 = wheel).
Proof.
  assert (H : five_ranked straight_2_6)
    by (split; [reflexivity | repeat constructor]).
  split; [exact H | exact (proj1 (proj2 (proj2 (straight_test H))))].
Defined.

(** ** Suits and the flush test *)

Lemma length_getSuit (c : jsstring) : length (getSuit c) = Nat.min 1 (length c).
Proof.
  unfold getSuit, slice_from, rel_index.
  change (-1 <? 0)%Z with true. cbv iota.
  rewrite length_skipn. lia.
Qed.

Lemma known_rank_nonempty (c : jsstring) : known_rank c = true -> c <> [].
Proof.
  intros H ->. vm_compute in H. discriminate H.
Qed.

Lemma in_sortedHand (hand : list jsstring) c :
  In c (sortedHand hand) <-> In c hand /\ known_rank c = true.
Proof.
  rewrite <- filter_In. split; apply Permutation_in;
    [|symmetry]; apply sortedHand_perm.
Qed.

(** Every suit read off a sorted card is a one-code-unit string. *)
Lemma suit_nonempty (hand : list jsstring) s : In s (suitArray hand) -> s <> [].
Proof.
  rewrite suitArray_eq, in_map_iff. intros [c [<- Hc]].
  apply in_sortedHand in Hc. destruct Hc as [_ Hk].
  apply known_rank_nonempty in Hk.
  pose proof (length_getSuit c) as Hl.
  destruct c; [congruence|]. simpl length in Hl.
  destruct (getSuit (n :: c)); [discriminate Hl|discriminate].
Qed.

Lemma get_tally_eq (l : list jsstring) k n :
  n <> 0 -> (eq_num (get (tally l) k) n = true <-> occ l k = n).
Proof.
  intros Hn. rewrite get_tally. unfold held.
  destruct (occ l k) as [|m].
  - simpl. split; [discriminate|congruence].
  - unfold eq_num. apply Nat.eqb_eq.
Qed.

(** The flush test holds exactly when some suit occurs five times among
    the sorted cards. *)
Lemma isFlush_iff (hand : list jsstring) :
  isFlush hand = true <-> exists s, occ (suitArray hand) s = 5.
Proof.
  unfold isFlush, countSuites. split.
  - destruct (find _ _) as [s|] eqn:E; [|discriminate]. intros _.
    apply find_some in E. destruct E as [_ E].
    exists s. apply (get_tally_eq (suitArray hand) s) in E; [exact E|discriminate].
  - intros [s Hs].
    destruct (find _ _) as [s'|] eqn:E.
    + apply find_some in E. destruct E as [Hin _].
      apply in_keys, in_keys_tally, suit_nonempty in Hin.
      destruct s'; [congruence|reflexivity].
    + assert (Hin : In s (keys (tally (suitArray hand)))).
      { apply in_keys, in_keys_tally, (count_occ_In jsstring_eq_dec).
        fold (occ (suitArray hand) s). lia. }
      pose proof (find_none _ _ E s Hin) as Hf. simpl in Hf.
      rewrite (proj2 (get_tally_eq (suitArray hand) s (n:=5) ltac:(discriminate)) Hs) in Hf.
      discriminate Hf.
Qed.

Lemma occ_all (l : list jsstring) s :
  occ l s = length l <-> Forall (fun x => x = s) l.
Proof.
  unfold occ. split.
  - intros H. apply count_occ_unique in H. rewrite H.
    apply Forall_forall. intros x Hx. apply repeat_spec in Hx. exact Hx.
  - induction 1 as [|x l -> _ IH]; simpl; [reflexivity|].
    destruct (jsstring_eq_dec s s); [|congruence]. rewrite IH; reflexivity.
Qed.

Lemma tally_repeat (s : jsstring) (n : nat) : tally (repeat s (S n)) = [(s, S n)].
Proof.
  induction n as [|n IH]; [reflexivity|].
  change (repeat s (S (S n))) with (s :: repeat s (S n)).
  rewrite repeat_cons, tally_snoc, IH. simpl.
  rewrite streq_refl. simpl. rewrite Nat.add_1_r. reflexivity.
Qed.

Lemma flush_to_same_suit (hand : list jsstring) :
  five_ranked hand ->
  isFlush hand = true -> exists s, Forall (fun c => getSuit c = s) hand.
Proof.
  intros [Hlen Hall] H.
  pose proof (suitArray_perm Hall) as Hperm.
  apply isFlush_iff in H. destruct H as [s Hs]. exists s.
  replace 5 with (length (suitArray hand)) in Hs
    by (rewrite (Permutation_length Hperm), length_map; exact Hlen).
  apply occ_all in Hs. apply (Permutation_Forall Hperm) in Hs.
  apply (proj1 (Forall_map getSuit (fun x => x = s) hand)) in Hs. exact Hs.
Qed.

Lemma same_suit_to_table (hand : list jsstring) :
  five_ranked hand ->
  (exists s, Forall (fun c => getSuit c = s) hand) ->
  exists s, countSuites hand = [(s, 5)].
Proof.
  intros [Hlen Hall] [s Hs]. exists s.
  pose proof (suitArray_perm Hall) as Hperm.
  assert (Hl : length (suitArray hand) = 5)
    by (rewrite (Permutation_length Hperm), length_map; exact Hlen).
  apply (proj2 (Forall_map getSuit (fun x => x = s) hand)) in Hs.
  apply (Permutation_Forall (Permutation_sym Hperm)) in Hs.
  apply occ_all in Hs. unfold occ in Hs.
  apply count_occ_unique in Hs. rewrite Hl in Hs.
  unfold countSuites. rewrite Hs. apply tally_repeat.
Qed.

Lemma table_to_key (o : object) :
  (exists s, o = [(s, 5)]) ->
  exists s, keys o = [s] /\ get o s = Some 5.
Proof.
  intros [s ->]. exists s. split.
  - unfold keys, index_keys, is_name; simpl.
    destruct (array_index s); reflexivity.
  - simpl. rewrite streq_refl. reflexivity.
Qed.

Lemma key_to_flush (hand : list jsstring) :
  (exists s, keys (countSuites hand) = [s] /\
             get (countSuites hand) s = Some 5) ->
  isFlush hand = true.
Proof.
  intros [s [Hk Hg]].
  assert (Hne : s <> []).
  { apply (suit_nonempty hand). apply in_keys_tally, in_keys.
    fold (countSuites hand). rewrite Hk. left; reflexivity. }
  unfold isFlush. rewrite Hk. simpl. rewrite Hg. simpl.
  destruct s; [congruence|reflexivity].
Qed.

Lemma same_suit_to_flush (hand : list jsstring) :
  five_ranked hand ->
  (exists s, Forall (fun c => getSuit c = s) hand) -> isFlush hand = true.
Proof.
  intros H5 Hs. apply key_to_flush, table_to_key, same_suit_to_table; assumption.
Qed.

(** C4: on five cards with canonical ranks the flush test holds exactly
    when the suit table has a single key and that key holds 5, which is
    exactly when the five cards have the same suit. *)
Theorem flush_test (hand : list jsstring) :
  five_ranked hand ->
  (isFlush hand = true <->
   exists s, keys (countSuites hand) = [s] /\ get (countSuites hand) s = Some 5) /\
  (isFlush hand = true <->
   exists s, Forall (fun c => getSuit c = s) hand).
Proof.
  intros H5. split; split.
  - intros H. apply table_to_key, same_suit_to_table, flush_to_same_suit; assumption.
  - apply key_to_flush.
  - apply flush_to_same_suit, H5.
  - apply same_suit_to_flush, H5.
Qed.

(** The hand 2 3 4 5 6 of one spade and four hearts is five cards with
    canonical ranks. *)
Lemma flush_test_witness :
  five_ranked straight_2_6 /\
  (isFlush straight_2_6 = true <->
   exists s, Forall (fun c => getSuit c = s) straight_2_6).
Proof.
  assert (H : five_ranked straight_2_6)
    by (split; [reflexivity | repeat constructor]).
  split; [exact H | exact (proj2 (flush_test H))].
Defined.

(** ** Multiplicities *)

Lemma entry_tally (l : list jsstring) k v : In (k, v) (tally l) -> v = occ l k.
Proof.
  intros Hin. apply get_entry in Hin; [|apply NoDup_keys_tally].
  rewrite get_tally in Hin. unfold held in Hin.
  destruct (occ l k); [discriminate|congruence].
Qed.

Lemma isFourOfKind_entries (hand : list jsstring) :
  isFourOfKind hand = length (filter (fun e => Nat.eqb (snd e) 4) (countRanks hand)).
Proof. apply count_keys, NoDup_keys_tally. Qed.

Lemma isThreeOfKind_entries (hand : list jsstring) :
  isThreeOfKind hand = length (filter (fun e => Nat.eqb (snd e) 3) (countRanks hand)).
Proof. apply count_keys, NoDup_keys_tally. Qed.

Lemma isPairs_entries (hand : list jsstring) :
  isPairs hand = length (filter (fun e => Nat.eqb (snd e) 2) (countRanks hand)).
Proof. apply count_keys, NoDup_keys_tally. Qed.

(** The ranks that occur four, three and two times account for that many
    cards of the hand. *)
Lemma counts_weight (hand : list jsstring) :
  4 * isFourOfKind hand + 3 * isThreeOfKind hand + 2 * isPairs hand <=
  length hand.
Proof.
  rewrite isFourOfKind_entries, isThreeOfKind_entries, isPairs_entries.
  etransitivity; [apply weight_le_total|].
  unfold countRanks. rewrite total_tally. apply length_rankArray_le.
Qed.

(** Ranks that are all different are no pair, no three and no four. *)
Lemma NoDup_counts (hand : list jsstring) :
  NoDup (rankArray hand) ->
  isFourOfKind hand = 0 /\ isThreeOfKind hand = 0 /\ isPairs hand = 0.
Proof.
  intros Hnd.
  assert (H : forall n, 2 <= n ->
            filter (fun e => Nat.eqb (snd e) n) (countRanks hand) = []).
  { intros n Hn.
    destruct (filter _ _) as [|[k v] l] eqn:E; [reflexivity|exfalso].
    assert (Hin : In (k, v) (filter (fun e => Nat.eqb (snd e) n) (countRanks hand)))
      by (rewrite E; left; reflexivity).
    apply filter_In in Hin. destruct Hin as [Hin Hv].
    apply entry_tally in Hin. simpl in Hv. apply Nat.eqb_eq in Hv.
    pose proof (proj1 (NoDup_count_occ jsstring_eq_dec _) Hnd k) as Hle.
    unfold occ in Hin. lia. }
  rewrite isFourOfKind_entries, isThreeOfKind_entries, isPairs_entries.
  rewrite !H by lia. auto.
Qed.

Lemma isStraight_NoDup (hand : list jsstring) :
  isStraight hand = true -> NoDup (rankArray hand).
Proof.
  intros Hs. apply isStraight_iff in Hs. destruct Hs as [E|[E|E]].
  - destruct (rankArray_not_akqj10 hand E).
  - rewrite E. apply (NoDup_count_occ' jsstring_eq_dec). intros r Hr.
    rank_cases Hr; subst r; reflexivity.
  - rewrite E. apply NoDup_slice, NoDup_ranks.
Qed.

(** ** The frequency tables of a valid hand *)

Lemma valid_hand_ranked (hand : list jsstring) : valid_hand hand -> five_ranked hand.
Proof.
  intros [Hlen Hall]. split; [exact Hlen|].
  eapply Forall_impl; [|exact Hall]. intros c [H _]; exact H.
Qed.

Lemma tally_nonempty (l : list jsstring) : l <> [] -> 1 <= length (tally l).
Proof.
  intros Hl. pose proof (total_tally l) as Ht.
  destruct (tally l); simpl; [|lia].
  destruct l; [congruence|discriminate Ht].
Qed.

Lemma keys_tally_le (l : list jsstring) : length (keys (tally l)) <= length l.
Proof.
  apply NoDup_incl_length.
  - apply NoDup_keys, NoDup_keys_tally.
  - intros k Hk. apply in_keys_tally, in_keys, Hk.
Qed.

(** C9, as amended: for a valid hand the rank table has between 1 and 5
    keys and the suit table between 1 and 4, and the counts of each table
    sum to 5. *)
Theorem frequency_tables (hand : list jsstring) :
  valid_hand hand ->
  (1 <= length (keys (countRanks hand)) <= 5 /\ total (countRanks hand) = 5) /\
  (1 <= length (keys (countSuites hand)) <= 4 /\ total (countSuites hand) = 5).
Proof.
  intros Hv. pose proof (valid_hand_ranked Hv) as [Hlen Hall].
  pose proof (length_rankArray_all Hall) as Hr. rewrite Hlen in Hr.
  pose proof (length_rankArray hand) as Hs. rewrite Hr in Hs. symmetry in Hs.
  unfold countRanks, countSuites. rewrite !total_tally, Hr, Hs.
  repeat split.
  - rewrite length_keys. apply tally_nonempty. intros E; rewrite E in Hr; discriminate.
  - rewrite <- Hr. apply keys_tally_le.
  - rewrite length_keys. apply tally_nonempty. intros E; rewrite E in Hs; discriminate.
  - change 4 with (length suits). apply NoDup_incl_length.
    + apply NoDup_keys, NoDup_keys_tally.
    + intros k Hk.
      apply (proj1 (in_keys _ k)) in Hk.
      apply (proj1 (in_keys_tally _ k)) in Hk.
      rewrite suitArray_eq in Hk. apply in_map_iff in Hk.
      destruct Hk as [c [<- Hc]]. apply in_sortedHand in Hc.
      destruct Hv as [_ Hv]. rewrite Forall_forall in Hv.
      destruct (Hv c (proj1 Hc)) as [_ Hsuit].
      unfold known_suit in Hsuit. apply existsb_exists in Hsuit.
      destruct Hsuit as [s [Hin E]]. apply streq_eq in E. subst s. exact Hin.
Qed.

Lemma valid_straight_2_6 : valid_hand straight_2_6.
Proof. split; [reflexivity | repeat constructor]. Qed.

Lemma frequency_tables_witness :
  valid_hand straight_2_6 /\
  (1 <= length (keys (countRanks straight_2_6)) <= 5 /\
   total (countRanks straight_2_6) = 5).
Proof.
  split; [exact valid_straight_2_6|].
  exact (proj1 (frequency_tables valid_straight_2_6)).
Defined.

(** C9 as stated fails: the valid hand 2 3 4 5 6 has five different ranks,
    so its rank table has five keys, not at most four. *)
Lemma rank_table_five_keys :
  valid_hand straight_2_6 /\
  length (keys (countRanks straight_2_6)) = 5 /\
  ~ (1 <= length (keys (countRanks straight_2_6)) <= 4).
Proof.
  split; [exact valid_straight_2_6|].
  split; [reflexivity|]. intros [_ H]. vm_compute in H. lia.
Qed.

(** ** The cascade *)

Ltac unfold_ranks :=
  unfold PokerRank.StraightFlush, PokerRank.FourOfKind, PokerRank.FullHouse,
    PokerRank.Flush, PokerRank.Straight, PokerRank.ThreeOfKind,
    PokerRank.TwoPairs, PokerRank.OnePair, PokerRank.HighCard in *.

Ltac cascade :=
  repeat match goal with
         | |- context [if ?b then _ else _] => destruct b eqn:?
         | H : context [if ?b then _ else _] |- _ => destruct b eqn:?
         end.

(** C5: in a five-card hand, one rank held three times together with one
    rank held twice classifies as FullHouse, and ThreeOfKind is returned
    only for one rank held three times and no rank held twice. *)
Theorem full_house_before_three (hand : list jsstring) :
  length hand = 5 ->
  (isThreeOfKind hand = 1 /\ isPairs hand = 1 ->
   getPokerHandRank hand = PokerRank.FullHouse /\
   getPokerHandRank hand <> PokerRank.ThreeOfKind) /\
  (getPokerHandRank hand = PokerRank.ThreeOfKind ->
   isThreeOfKind hand = 1 /\ isPairs hand = 0).
Proof.
  intros Hlen. pose proof (counts_weight hand) as Hw. rewrite Hlen in Hw.
  split.
  - intros [H3 H2].
    assert (H4 : isFourOfKind hand = 0) by lia.
    assert (Hs : isStraight hand = false).
    { destruct (isStraight hand) eqn:E; [|reflexivity].
      apply isStraight_NoDup, NoDup_counts in E. lia. }
    unfold getPokerHandRank. rewrite Hs, H4, H3, H2. simpl.
    split; [reflexivity|discriminate].
  - intros H.
    assert (Ht : truthy_num (isThreeOfKind hand) = true /\
                 Nat.eqb (isPairs hand) 1 = false).
    { revert H. unfold getPokerHandRank. unfold_ranks.
      destruct (isStraight hand && isFlush hand); [discriminate|].
      destruct (truthy_num (isFourOfKind hand)); [discriminate|].
      destruct (truthy_num (isThreeOfKind hand)); simpl.
      - destruct (Nat.eqb (isPairs hand) 1); [discriminate|]. auto.
      - destruct (isFlush hand); [discriminate|].
        destruct (isStraight hand); [discriminate|].
        destruct (Nat.eqb (isPairs hand) 2); [discriminate|].
        destruct (Nat.eqb (isPairs hand) 1); discriminate. }
    destruct Ht as [Ht Hp]. unfold truthy_num in Ht.
    apply negb_true_iff, Nat.eqb_neq in Ht. apply Nat.eqb_neq in Hp. lia.
Qed.

(** The hand 4 4 5 5 5 is a five-card hand with one rank held three times
    and one held twice. *)
Lemma full_house_before_three_witness :
  length full_house = 5 /\
  (isThreeOfKind full_house = 1 /\ isPairs full_house = 1) /\
  getPokerHandRank full_house = PokerRank.FullHouse.
Proof.
  split; [reflexivity|]. split; [split; reflexivity|].
  apply (proj1 (@full_house_before_three full_house eq_refl)).
  split; reflexivity.
Defined.

(** C7: [getPokerHandRank] returns, for every hand, one of the nine
    constants of [PokerRank], an integer between [HighCard = 0] and
    [StraightFlush = 8]. *)
Theorem classification_total (hand : list jsstring) :
  In (getPokerHandRank hand)
     [PokerRank.StraightFlush; PokerRank.FourOfKind; PokerRank.FullHouse;
      PokerRank.Flush; PokerRank.Straight; PokerRank.ThreeOfKind;
      PokerRank.TwoPairs; PokerRank.OnePair; PokerRank.HighCard] /\
  (PokerRank.HighCard <= getPokerHandRank hand <= PokerRank.StraightFlush)%Z /\
  PokerRank.HighCard = 0%Z /\ PokerRank.StraightFlush = 8%Z.
Proof.
  unfold getPokerHandRank. unfold_ranks.
  cascade; simpl; (split; [tauto | split; [lia | split; reflexivity]]).
Qed.

(** ** Independence of the order of the cards *)

Lemma canon_Permutation (l l' : list jsstring) :
  Permutation l l' -> canon l = canon l'.
Proof.
  intros H. unfold canon. apply flat_map_ext. intros r.
  unfold occ. rewrite (proj1 (Permutation_count_occ jsstring_eq_dec l l') H r).
  reflexivity.
Qed.

Lemma rankArray_Permutation (hand hand' : list jsstring) :
  Permutation hand hand' -> rankArray hand = rankArray hand'.
Proof.
  intros H. rewrite !rankArray_canon.
  apply canon_Permutation, Permutation_map, H.
Qed.

Lemma suitArray_Permutation (hand hand' : list jsstring) :
  Permutation hand hand' -> Permutation (suitArray hand) (suitArray hand').
Proof.
  intros H. rewrite !suitArray_eq. apply Permutation_map.
  rewrite !sortedHand_perm. apply filter_Permutation, H.
Qed.

Lemma isFlush_Permutation (hand hand' : list jsstring) :
  Permutation hand hand' -> isFlush hand = isFlush hand'.
Proof.
  intros H. apply eq_true_iff_eq. rewrite !isFlush_iff.
  pose proof (suitArray_Permutation H) as Hs.
  split; intros [s E]; exists s; unfold occ in *;
    rewrite <- E; [symmetry|];
    apply (proj1 (Permutation_count_occ jsstring_eq_dec _ _) Hs s).
Qed.

(** The verdict is a function of [rankArray] and of the flush test. *)
Lemma rank_depends (hand hand' : list jsstring) :
  rankArray hand = rankArray hand' ->
  isFlush hand = isFlush hand' ->
  getPokerHandRank hand = getPokerHandRank hand'.
Proof.
  unfold getPokerHandRank, isStraight, section, ref,
    isFourOfKind, isThreeOfKind, isPairs, countRanks.
  intros -> ->. reflexivity.
Qed.

(** C6: rearranging the cards of a hand does not change its category. *)
Theorem order_independence (hand hand' : list jsstring) :
  Permutation hand hand' ->
  getPokerHandRank hand = getPokerHandRank hand'.
Proof.
  intros H. apply rank_depends.
  - apply rankArray_Permutation, H.
  - apply isFlush_Permutation, H.
Qed.

Lemma order_independence_witness :
  Permutation wheel_mixed (rev wheel_mixed) /\
  getPokerHandRank wheel_mixed = getPokerHandRank (rev wheel_mixed).
Proof.
  assert (H : Permutation wheel_mixed (rev wheel_mixed))
    by apply Permutation_rev.
  split; [exact H | exact (order_independence H)].
Defined.

(** ** Precedence *)

Lemma sorted_split (cs : list category) :
  StronglySorted precedes cs ->
  forall pre hi mid lo post,
    cs = pre ++ hi :: mid ++ lo :: post -> precedes hi lo.
Proof.
  intros Hs pre; revert cs Hs.
  induction pre as [|e pre IH]; intros cs Hs hi mid lo post ->; simpl in Hs;
    inversion Hs as [|? ? Hs' Hall]; subst.
  - rewrite Forall_forall in Hall. apply Hall.
    apply in_or_app; right; left; reflexivity.
  - eapply IH; [exact Hs'|reflexivity].
Qed.

(** In a list of tests ordered by precedence, the first test that holds
    carries a constant no smaller than that of any test that holds. *)
Lemma first_match_above (cs : list category) (hand : list jsstring) (r : Z) :
  StronglySorted precedes cs ->
  first_match cs hand = Some r ->
  forall pre hi post,
    cs = pre ++ hi :: post -> fst hi hand = true -> (snd hi <= r)%Z.
Proof.
  intros Hs Hf pre; revert cs Hs Hf.
  induction pre as [|e pre IH]; intros cs Hs Hf hi post -> Hhi;
    unfold first_match in Hf; simpl in Hf.
  - rewrite Hhi in Hf. injection Hf as <-. lia.
  - inversion Hs as [|? ? Hs' Hall]; subst.
    destruct (fst e hand) eqn:He.
    + injection Hf as <-. rewrite Forall_forall in Hall.
      assert (H : precedes e hi)
        by (apply Hall, in_or_app; right; left; reflexivity).
      unfold precedes in H. lia.
    + eapply IH; [exact Hs'|exact Hf|reflexivity|exact Hhi].
Qed.

Lemma sorted_categories : StronglySorted precedes categories.
Proof.
  unfold categories.
  repeat (constructor; [|repeat (constructor; [cbv; try reflexivity|])]).
  all: constructor.
Qed.

Lemma sorted_spec_categories : StronglySorted precedes spec_categories.
Proof.
  unfold spec_categories.
  repeat (constructor; [|repeat (constructor; [cbv; try reflexivity|])]).
  all: constructor.
Qed.

Lemma first_match_categories (hand : list jsstring) :
  first_match categories hand = Some (getPokerHandRank hand).
Proof.
  unfold first_match, categories, getPokerHandRank. simpl.
  destruct (isStraight hand && isFlush hand); [reflexivity|].
  destruct (truthy_num (isFourOfKind hand)); [reflexivity|].
  destruct (truthy_num (isThreeOfKind hand) && Nat.eqb (isPairs hand) 1);
    [reflexivity|].
  destruct (isFlush hand); [reflexivity|].
  destruct (isStraight hand); [reflexivity|].
  destruct (truthy_num (isThreeOfKind hand)); [reflexivity|].
  destruct (Nat.eqb (isPairs hand) 2); [reflexivity|].
  destruct (Nat.eqb (isPairs hand) 1); reflexivity.
Qed.

(** On at most five cards the code's tests and the specification's
    coincide: no two ranks can each be held three or four times. *)
Lemma first_match_spec (hand : list jsstring) :
  length hand <= 5 ->
  first_match spec_categories hand = first_match categories hand.
Proof.
  intros Hlen. pose proof (counts_weight hand) as Hw.
  assert (H4 : Nat.eqb (isFourOfKind hand) 1 = truthy_num (isFourOfKind hand)).
  { destruct (isFourOfKind hand) as [|[|n]]; try reflexivity. lia. }
  assert (H3 : Nat.eqb (isThreeOfKind hand) 1 = truthy_num (isThreeOfKind hand)).
  { destruct (isThreeOfKind hand) as [|[|n]]; try reflexivity. lia. }
  unfold first_match, spec_categories, categories. simpl.
  rewrite H4, H3. cascade; reflexivity.
Qed.

(** C1: [getPokerHandRank] returns the constant of the first test that
    holds, the tests being taken in the order StraightFlush, FourOfKind,
    FullHouse, Flush, Straight, ThreeOfKind, TwoPairs, OnePair, HighCard;
    on a five-card hand this is so for the tests as the code makes them and
    as the specification words them.  Hence when a test holds together
    with one of lower precedence, the category returned is at least that
    of the former and is not the latter's. *)
Theorem precedence_order (hand : list jsstring) :
  length hand = 5 ->
  map snd categories =
    [PokerRank.StraightFlush; PokerRank.FourOfKind; PokerRank.FullHouse;
     PokerRank.Flush; PokerRank.Straight; PokerRank.ThreeOfKind;
     PokerRank.TwoPairs; PokerRank.OnePair; PokerRank.HighCard] /\
  first_match categories hand = Some (getPokerHandRank hand) /\
  first_match spec_categories hand = Some (getPokerHandRank hand) /\
  (forall cs, cs = categories \/ cs = spec_categories ->
   forall pre hi mid lo post,
     cs = pre ++ hi :: mid ++ lo :: post ->
     fst hi hand = true -> fst lo hand = true ->
     (snd lo < snd hi <= getPokerHandRank hand)%Z) /\
  (isStraight hand = true -> isFlush hand = true ->
   getPokerHandRank hand = PokerRank.StraightFlush).
Proof.
  intros Hlen.
  assert (Hspec : first_match spec_categories hand = Some (getPokerHandRank hand)).
  { rewrite first_match_spec by lia. apply first_match_categories. }
  split; [reflexivity|]. split; [apply first_match_categories|].
  split; [exact Hspec|]. split.
  - intros cs Hcs pre hi mid lo post E Hhi _.
    assert (Hs : StronglySorted precedes cs)
      by (destruct Hcs; subst cs;
          [apply sorted_categories | apply sorted_spec_categories]).
    assert (Hf : first_match cs hand = Some (getPokerHandRank hand))
      by (destruct Hcs; subst cs; [apply first_match_categories | exact Hspec]).
    split.
    + apply (@sorted_split cs Hs pre hi mid lo post E).
    + apply (@first_match_above cs hand _ Hs Hf pre hi (mid ++ lo :: post) E Hhi).
  - intros Hs Hf. unfold getPokerHandRank. rewrite Hs, Hf. reflexivity.
Qed.

(** The club flush 4 5 6 7 Q satisfies the Flush test and the HighCard
    test; its category is Flush. *)
Lemma precedence_order_witness :
  length flush_to_queen = 5 /\
  first_match spec_categories flush_to_queen =
    Some (getPokerHandRank flush_to_queen) /\
  getPokerHandRank flush_to_queen = PokerRank.Flush.
Proof.
  split; [reflexivity|]. split; [|reflexivity].
  exact (proj1 (proj2 (proj2 (@precedence_order flush_to_queen eq_refl)))).
Defined.

(** ** The wheel *)

(** C3: a hand whose ranks are A, 2, 3, 4 and 5 is StraightFlush when its
    flush test holds and Straight otherwise, never HighCard; the two
    wheels of the examples are StraightFlush and Straight. *)
Theorem wheel_is_straight (hand : list jsstring) :
  Permutation (map getRank hand) wheel ->
  getPokerHandRank hand =
    (if isFlush hand then PokerRank.StraightFlush else PokerRank.Straight) /\
  (isFlush hand = true <-> exists s, Forall (fun c => getSuit c = s) hand) /\
  getPokerHandRank hand <> PokerRank.HighCard /\
  getPokerHandRank wheel_flush = PokerRank.StraightFlush /\
  getPokerHandRank wheel_mixed = PokerRank.Straight.
Proof.
  intros Hp.
  assert (Hr : rankArray hand = wheel).
  { rewrite rankArray_canon, (canon_Permutation Hp). reflexivity. }
  assert (H5 : five_ranked hand).
  { split.
    - rewrite <- (length_map getRank), (Permutation_length Hp). reflexivity.
    - apply Forall_forall. intros c Hc. apply known_rank_iff.
      apply (in_map getRank) in Hc. apply (Permutation_in _ Hp) in Hc.
      revert Hc. generalize (getRank c) as r. intros r Hin.
      rank_cases Hin; subst r; cbv; tauto. }
  assert (Hs : isStraight hand = true) by (apply isStraight_iff; tauto).
  destruct (NoDup_counts hand (isStraight_NoDup hand Hs)) as [H4 [H3 _]].
  assert (Hrank : getPokerHandRank hand =
                  if isFlush hand then PokerRank.StraightFlush
                  else PokerRank.Straight).
  { unfold getPokerHandRank. rewrite Hs, H4, H3.
    destruct (isFlush hand); reflexivity. }
  split; [exact Hrank|].
  split; [split; [apply flush_to_same_suit | apply same_suit_to_flush]; exact H5|].
  split; [|split; reflexivity].
  rewrite Hrank. destruct (isFlush hand); discriminate.
Qed.

Lemma wheel_is_straight_witness :
  Permutation (map getRank wheel_mixed) wheel /\
  getPokerHandRank wheel_mixed = PokerRank.Straight.
Proof.
  assert (H : Permutation (map getRank wheel_mixed) wheel).
  { vm_compute. apply perm_skip.
    apply (Permutation_cons_app [[51%N]] [[53%N]; [65%N]]).
    apply (Permutation_cons_app [[51%N]] [[65%N]]).
    apply perm_swap. }
  split; [exact H|].
  exact (proj2 (proj2 (proj2 (proj2 (@wheel_is_straight wheel_mixed H))))).
Defined.

(** ** Tokens that are no cards *)

Lemma filter_filter_same {A : Type} (p q : A -> bool) (l : list A) :
  (forall x, p x = true -> q x = true) ->
  filter p (filter q l) = filter p l.
Proof.
  intros H. induction l as [|x l IH]; simpl; [reflexivity|].
  destruct (q x) eqn:Eq; simpl; rewrite IH; [reflexivity|].
  destruct (p x) eqn:Ep; [|reflexivity].
  rewrite (H x Ep) in Eq. discriminate Eq.
Qed.

Lemma sortedHand_known (hand : list jsstring) :
  sortedHand hand = sortedHand (filter known_rank hand).
Proof.
  rewrite !sortedHand_eq. apply flat_map_ext_on. intros r Hr.
  symmetry. apply filter_filter_same. intros c Hc.
  apply streq_eq in Hc. apply known_rank_iff. rewrite <- Hc. exact Hr.
Qed.

Lemma sorted_depends (hand hand' : list jsstring) :
  sortedHand hand = sortedHand hand' ->
  getPokerHandRank hand = getPokerHandRank hand'.
Proof.
  intros H. apply rank_depends.
  - rewrite !rankArray_eq, H. reflexivity.
  - unfold isFlush, countSuites. rewrite !suitArray_eq, H. reflexivity.
Qed.

(** C8, as amended: no token is rejected.  The sorting stage keeps exactly
    the tokens whose rank part is a canonical rank, whatever their suit
    part, and the hand is classified as if the other tokens were absent. *)
Theorem unknown_rank_dropped (hand : list jsstring) :
  (forall c, In c (sortedHand hand) <-> In c hand /\ known_rank c = true) /\
  sortedHand hand = sortedHand (filter known_rank hand) /\
  getPokerHandRank hand = getPokerHandRank (filter known_rank hand).
Proof.
  split; [intros c; apply in_sortedHand|].
  split; [apply sortedHand_known|].
  apply sorted_depends, sortedHand_known.
Qed.

(** C8 as stated fails: five tokens of which the first has the rank part
    ["1"], and five tokens of which the first has the suit part ["x"],
    are both classified; the former as the four-card run J Q K A. *)
Lemma malformed_tokens_classified :
  (length hand_with_1 = 5 /\
   known_rank (card "1" spade) = false /\
   sortedHand hand_with_1 =
     [card "J" spade; card "Q" spade; card "K" spade; card "A" spade] /\
   getPokerHandRank hand_with_1 = PokerRank.Straight) /\
  (length hand_with_x = 5 /\
   known_suit (card "2" 120%N) = false /\
   getPokerHandRank hand_with_x = PokerRank.Straight).
Proof. repeat split; reflexivity. Qed.

(** ** [split] and [join] *)

Lemma split_on_nonempty (sep : N) (s : jsstring) : split_on sep s <> [].
Proof.
  destruct s as [|u s]; simpl; [discriminate|].
  destruct (N.eqb u sep); [discriminate|].
  destruct (split_on sep s); discriminate.
Qed.

Lemma split_on_cons (sep u : N) (s : jsstring) :
  u <> sep ->
  split_on sep (u :: s) =
  (u :: hd [] (split_on sep s)) :: tl (split_on sep s).
Proof.
  intros Hu. simpl. rewrite (proj2 (N.eqb_neq u sep) Hu).
  pose proof (split_on_nonempty sep s) as Hn.
  destruct (split_on sep s); [congruence|reflexivity].
Qed.

(** Splitting a text that has a separator between [a] and [b]. *)
Lemma split_on_app (sep : N) (a b : jsstring) :
  split_on sep (a ++ sep :: b) = split_on sep a ++ split_on sep b.
Proof.
  induction a as [|u a IH].
  - simpl. rewrite N.eqb_refl. reflexivity.
  - simpl app. destruct (N.eqb_spec u sep) as [->|Hu].
    + simpl. rewrite N.eqb_refl, IH. reflexivity.
    + rewrite !split_on_cons by assumption. rewrite IH.
      pose proof (split_on_nonempty sep a) as Hn.
      destruct (split_on sep a); [congruence|reflexivity].
Qed.

Lemma split_on_word (sep : N) (w : jsstring) :
  ~ In sep w -> split_on sep w = [w].
Proof.
  induction w as [|u w IH]; intros Hw; [reflexivity|].
  rewrite split_on_cons by (intros ->; apply Hw; left; reflexivity).
  rewrite IH by (intros H; apply Hw; right; exact H). reflexivity.
Qed.

Lemma split_on_free (sep : N) (s : jsstring) :
  Forall (fun w => ~ In sep w) (split_on sep s).
Proof.
  induction s as [|u s IH]; simpl.
  - constructor; [tauto|constructor].
  - destruct (N.eqb_spec u sep) as [->|Hu].
    + constructor; [tauto|exact IH].
    + destruct (split_on sep s) as [|w ws]; [repeat constructor; simpl; intuition|].
      inversion IH as [|? ? Hw Hws]; subst.
      constructor; [|exact Hws]. simpl. intros [H|H]; [congruence|tauto].
Qed.

(** Joining the pieces of a split gives the text back. *)
Lemma join_split_on (sep : N) (s : jsstring) :
  join_with sep (map Some (split_on sep s)) = s.
Proof.
  induction s as [|u s IH]; [reflexivity|]. simpl split_on.
  pose proof (split_on_nonempty sep s) as Hn.
  destruct (N.eqb_spec u sep) as [->|Hu].
  - destruct (split_on sep s) as [|w ws]; [congruence|].
    simpl in *. rewrite IH. reflexivity.
  - destruct (split_on sep s) as [|w ws]; [congruence|].
    destruct ws; simpl in *; rewrite <- IH; reflexivity.
Qed.

Lemma join_with_cons (sep : N) (v : option jsstring) (a : list (option jsstring)) :
  a <> [] -> join_with sep (v :: a) = str_of v ++ sep :: join_with sep a.
Proof. destruct a; [congruence|reflexivity]. Qed.

Lemma pop_rev_cons {A : Type} (x : A) (l : list A) :
  pop (rev (x :: l)) = (Some x, rev l).
Proof. unfold pop. rewrite rev_involutive. reflexivity. Qed.

(** ** [wrapText] *)

(** The generator starts from the first word and feeds the loop the other
    words in the order of the text. *)
Lemma wrapText_words (text : jsstring) (columns : Z) :
  exists w ws,
    split_on space text = w :: ws /\
    wrapText text columns = wrapWords columns ws (Some w).
Proof.
  unfold wrapText, wrapLoop.
  pose proof (split_on_nonempty space text) as Hn.
  destruct (split_on space text) as [|w ws]; [congruence|].
  exists w, ws. split; [reflexivity|].
  rewrite pop_rev_cons, rev_involutive. reflexivity.
Qed.

Lemma wrapWords_nonempty (columns : Z) (todo : list jsstring) phrase :
  wrapWords columns todo phrase <> [].
Proof.
  revert phrase; induction todo as [|ph todo IH]; intros phrase; simpl.
  - discriminate.
  - destruct (_ <=? _)%Z; [apply IH|discriminate].
Qed.

Lemma wrapWords_strings (columns : Z) (todo : list jsstring) (p : jsstring) :
  exists lines, wrapWords columns todo (Some p) = map Some lines.
Proof.
  revert p; induction todo as [|ph todo IH]; intros p; simpl.
  - exists [p]. reflexivity.
  - destruct (_ <=? _)%Z.
    + apply IH.
    + destruct (IH ph) as [lines E]. exists (p :: lines).
      rewrite E. reflexivity.
Qed.

(** X1: [wrapText] yields at least one value and never yields
    [undefined]: its yields are strings, one at least, whatever the text
    and the number of columns. *)
Theorem wrapText_yields_strings (text : jsstring) (columns : Z) :
  exists line lines, wrapText text columns = map Some (line :: lines).
Proof.
  destruct (wrapText_words text columns) as [w [ws [_ E]]].
  destruct (wrapWords_strings columns ws w) as [lines El].
  rewrite E, El. destruct lines as [|line lines].
  - exfalso. apply (wrapWords_nonempty columns ws (Some w)).
    rewrite El. reflexivity.
  - exists line, lines. reflexivity.
Qed.

Lemma join_wrapWords (columns : Z) (todo : list jsstring) (p : jsstring) :
  join_with space (wrapWords columns todo (Some p)) =
  join_with space (Some p :: map Some todo).
Proof.
  revert p; induction todo as [|ph todo IH]; intros p; [reflexivity|].
  simpl wrapWords. destruct (_ <=? _)%Z.
  - rewrite IH. simpl str_of.
    destruct todo; simpl; rewrite <- ?app_assoc; reflexivity.
  - rewrite join_with_cons by apply wrapWords_nonempty.
    rewrite IH. reflexivity.
Qed.

(** X2: the yielded lines, joined by single spaces, are the text: wrapping
    neither drops, adds, reorders nor alters any character. *)
Theorem wrapText_join (text : jsstring) (columns : Z) :
  join_with space (wrapText text columns) = text.
Proof.
  destruct (wrapText_words text columns) as [w [ws [Es E]]].
  rewrite E, join_wrapWords.
  change (Some w :: map Some ws) with (map Some (w :: ws)).
  rewrite <- Es. apply join_split_on.
Qed.

Lemma joined_pair (p ph : jsstring) :
  join_with space [Some p; Some ph] = p ++ space :: ph.
Proof. reflexivity. Qed.

Lemma words_wrapWords (columns : Z) (todo : list jsstring) (p : jsstring) :
  flat_map (fun v => split_on space (str_of v)) (wrapWords columns todo (Some p)) =
  split_on space p ++ flat_map (split_on space) todo.
Proof.
  revert p; induction todo as [|ph todo IH]; intros p; [reflexivity|].
  cbn [wrapWords join_with str_of]. destruct (_ <=? _)%Z.
  - rewrite IH, split_on_app, <- app_assoc. reflexivity.
  - cbn [flat_map str_of]. rewrite IH. reflexivity.
Qed.

Lemma flat_map_split_words (sep : N) (l : list jsstring) :
  Forall (fun w => ~ In sep w) l -> flat_map (split_on sep) l = l.
Proof.
  induction 1 as [|w l Hw _ IH]; simpl; [reflexivity|].
  rewrite (split_on_word sep w Hw), IH. reflexivity.
Qed.

(** X3: lines are broken at spaces only: the words of the yielded lines,
    taken in order, are the words of the text. *)
Theorem wrapText_words_kept (text : jsstring) (columns : Z) :
  flat_map (fun v => split_on space (str_of v)) (wrapText text columns) =
  split_on space text.
Proof.
  destruct (wrapText_words text columns) as [w [ws [Es E]]].
  rewrite E, words_wrapWords.
  change (split_on space w ++ flat_map (split_on space) ws)
    with (flat_map (split_on space) (w :: ws)).
  rewrite <- Es. rewrite flat_map_split_words by apply split_on_free.
  reflexivity.
Qed.

Lemma width_wrapWords (columns : Z) (words todo : list jsstring) (p line : jsstring) :
  incl todo words ->
  (Z.of_nat (length p) <= columns)%Z \/ In p words ->
  In (Some line) (wrapWords columns todo (Some p)) ->
  (Z.of_nat (length line) <= columns)%Z \/ In line words.
Proof.
  revert p; induction todo as [|ph todo IH]; intros p Hincl Hp Hin.
  - destruct Hin as [Hin|[]]. injection Hin as <-. exact Hp.
  - assert (Hincl' : incl todo words)
      by (intros x Hx; apply Hincl; right; exact Hx).
    cbn [wrapWords join_with str_of] in Hin.
    destruct (_ <=? _)%Z eqn:Hfit.
    + apply (IH _ Hincl') in Hin; [exact Hin|].
      left. apply Z.leb_le in Hfit. exact Hfit.
    + destruct Hin as [Hin|Hin].
      * injection Hin as <-. exact Hp.
      * apply (IH _ Hincl') in Hin; [exact Hin|].
        right. apply Hincl. left; reflexivity.
Qed.

(** X4: a yielded line is longer than [columns] only if it is a single
    word of the text; every line made of several words fits. *)
Theorem wrapText_width (text : jsstring) (columns : Z) (line : jsstring) :
  In (Some line) (wrapText text columns) ->
  (Z.of_nat (length line) <= columns)%Z \/ In line (split_on space text).
Proof.
  destruct (wrapText_words text columns) as [w [ws [Es E]]].
  rewrite E, Es. apply width_wrapWords.
  - intros x Hx; right; exact Hx.
  - right; left; reflexivity.
Qed.

Lemma wrapText_width_witness :
  In (Some (lit "is a constructor for")) (wrapText wrap_example 26) /\
  ((Z.of_nat (length (lit "is a constructor for")) <= 26)%Z \/
   In (lit "is a constructor for") (split_on space wrap_example)).
Proof.
  assert (H : In (Some (lit "is a constructor for")) (wrapText wrap_example 26))
    by (vm_compute; tauto).
  split; [exact H | exact (@wrapText_width wrap_example 26 _ H)].
Defined.

Lemma first_word_joined (p ph : jsstring) :
  first_word (p ++ space :: ph) = first_word p.
Proof.
  unfold first_word. rewrite split_on_app.
  pose proof (split_on_nonempty space p) as Hn.
  destruct (split_on space p); [congruence|reflexivity].
Qed.

Lemma first_word_wrapWords (columns : Z) (todo : list jsstring) (p : jsstring) :
  first_word (str_of (hd None (wrapWords columns todo (Some p)))) = first_word p.
Proof.
  revert p; induction todo as [|ph todo IH]; intros p; [reflexivity|].
  cbn [wrapWords join_with str_of]. destruct (_ <=? _)%Z; [|reflexivity].
  rewrite IH. apply first_word_joined.
Qed.

Lemma greedy_wrapWords (columns : Z) (todo : list jsstring) :
  Forall (fun w => ~ In space w) todo ->
  forall p pre a b post,
    wrapWords columns todo (Some p) = pre ++ Some a :: Some b :: post ->
    (columns < Z.of_nat (length a + 1 + length (first_word b)))%Z.
Proof.
  induction 1 as [|ph todo Hph _ IH]; intros p pre a b post E.
  - destruct pre as [|? [|? ?]]; discriminate E.
  - cbn [wrapWords join_with str_of] in E. destruct (_ <=? _)%Z eqn:Hfit.
    + eapply IH, E.
    + destruct pre as [|x pre]; simpl in E.
      * injection E as -> E.
        pose proof (first_word_wrapWords columns todo ph) as Hf.
        rewrite E in Hf. simpl in Hf. rewrite Hf.
        unfold first_word. rewrite (split_on_word space ph Hph). simpl hd.
        apply Z.leb_gt in Hfit. rewrite length_app in Hfit.
        simpl length in Hfit. lia.
      * injection E as _ E. eapply IH, E.
Qed.

(** X5: the wrapping is greedy: a line ends only where the first word of
    the next line would not have fitted on it. *)
Theorem wrapText_greedy (text : jsstring) (columns : Z)
  (pre post : list (option jsstring)) (a b : jsstring) :
  wrapText text columns = pre ++ Some a :: Some b :: post ->
  (columns < Z.of_nat (length a + 1 + length (first_word b)))%Z.
Proof.
  destruct (wrapText_words text columns) as [w [ws [Es E]]].
  rewrite E. apply greedy_wrapWords.
  pose proof (split_on_free space text) as Hf. rewrite Es in Hf.
  inversion Hf; assumption.
Qed.

Lemma wrapText_greedy_witness :
  wrapText wrap_example 26 =
    [] ++ Some (lit "The String global object")
       :: Some (lit "is a constructor for")
       :: [Some (lit "strings, or a sequence of"); Some (lit "characters.")] /\
  (26 < Z.of_nat (length (lit "The String global object") + 1 +
                  length (first_word (lit "is a constructor for"))))%Z.
Proof.
  assert (H : wrapText wrap_example 26 =
    [] ++ Some (lit "The String global object")
       :: Some (lit "is a constructor for")
       :: [Some (lit "strings, or a sequence of"); Some (lit "characters.")])
    by reflexivity.
  split; [exact H | exact (wrapText_greedy _ _ _ _ _ _ H)].
Defined.

Lemma join_with_joined (p ph : jsstring) (l : list (option jsstring)) :
  join_with space (Some (p ++ space :: ph) :: l) =
  join_with space (Some p :: Some ph :: l).
Proof. destruct l; simpl; rewrite <- ?app_assoc; reflexivity. Qed.

Lemma length_join_head (ph : jsstring) (l : list (option jsstring)) :
  length ph <= length (join_with space (Some ph :: l)).
Proof.
  destruct l; simpl; [lia|]. rewrite length_app. lia.
Qed.

Lemma fits_wrapWords (columns : Z) (todo : list jsstring) (p : jsstring) :
  (Z.of_nat (length (join_with space (Some p :: map Some todo))) <= columns)%Z ->
  wrapWords columns todo (Some p) =
  [Some (join_with space (Some p :: map Some todo))].
Proof.
  revert p; induction todo as [|ph todo IH]; intros p Hfit; [reflexivity|].
  cbn [wrapWords join_with str_of map].
  assert (Hj : (Z.of_nat (length (p ++ space :: ph)) <= columns)%Z).
  { cbn [map] in Hfit.
    rewrite join_with_cons, length_app in Hfit by discriminate.
    cbn [str_of length] in Hfit.
    pose proof (length_join_head ph (map Some todo)) as Hle.
    rewrite length_app. simpl length. lia. }
  rewrite (proj2 (Z.leb_le _ _) Hj).
  rewrite IH; rewrite join_with_joined; [reflexivity|exact Hfit].
Qed.

Lemma single_wrapWords (columns : Z) (todo : list jsstring) (p x : jsstring) :
  wrapWords columns todo (Some p) = [Some x] ->
  todo <> [] -> (Z.of_nat (length x) <= columns)%Z.
Proof.
  revert p; induction todo as [|ph todo IH]; intros p E Hne; [congruence|].
  cbn [wrapWords join_with str_of] in E.
  destruct (_ <=? _)%Z eqn:Hfit.
  - destruct todo as [|ph' todo].
    + simpl in E. injection E as <-. apply Z.leb_le, Hfit.
    + eapply IH; [exact E|discriminate].
  - exfalso. injection E as _ E.
    apply (wrapWords_nonempty columns todo (Some ph) E).
Qed.

(** X6: the whole text is yielded as one line exactly when it fits in
    [columns] or has no space. *)
Theorem wrapText_single_line (text : jsstring) (columns : Z) :
  wrapText text columns = [Some text] <->
  (Z.of_nat (length text) <= columns)%Z \/ ~ In space text.
Proof.
  destruct (wrapText_words text columns) as [w [ws [Es E]]].
  pose proof (join_split_on space text) as Hj. rewrite Es in Hj.
  split.
  - intros H. rewrite H in E. symmetry in E.
    destruct ws as [|w' ws].
    + right. simpl in Hj. subst w.
      pose proof (split_on_free space text) as Hf. rewrite Es in Hf.
      inversion Hf; assumption.
    + left. eapply single_wrapWords; [exact E|discriminate].
  - intros [Hfit|Hfree].
    + rewrite E, fits_wrapWords; cbn [map] in Hj; rewrite Hj; [reflexivity|exact Hfit].
    + rewrite (split_on_word space text Hfree) in Es.
      injection Es as <- <-. exact E.
Qed.

Lemma narrow_wrapWords (columns : Z) (todo : list jsstring) (p : jsstring) :
  (columns <= 0)%Z ->
  wrapWords columns todo (Some p) = Some p :: map Some todo.
Proof.
  intros Hc. revert p; induction todo as [|ph todo IH]; intros p; [reflexivity|].
  cbn [wrapWords join_with str_of map].
  assert (Hfit : (Z.of_nat (length (p ++ space :: ph)) <=? columns)%Z = false).
  { apply Z.leb_gt. rewrite length_app. simpl length. lia. }
  rewrite Hfit, IH. reflexivity.
Qed.

(** X7: with no column at all, zero or a negative number, every word of
    the text, empty words included, is a line of its own. *)
Theorem wrapText_no_columns (text : jsstring) (columns : Z) :
  (columns <= 0)%Z ->
  wrapText text columns = map Some (split_on space text).
Proof.
  intros Hc. destruct (wrapText_words text columns) as [w [ws [Es E]]].
  rewrite E, Es. apply narrow_wrapWords, Hc.
Qed.

Lemma wrapText_no_columns_witness :
  (0 <= 0)%Z /\
  wrapText (lit "or a  sequence") 0 =
  map Some (split_on space (lit "or a  sequence")).
Proof.
  assert (H : (0 <= 0)%Z) by lia.
  split; [exact H | exact (wrapText_no_columns (lit "or a  sequence") H)].
Defined.

(** The two examples of the documentation of [wrapText]. *)
Example wrapText_doc_examples :
  wrapText wrap_example 26 =
    map (fun s => Some (lit s))
        ["The String global object"; "is a constructor for";
         "strings, or a sequence of"; "characters."]%string /\
  wrapText wrap_example 12 =
    map (fun s => Some (lit s))
        ["The String"; "global"; "object is a"; "constructor";
         "for strings,"; "or a"; "sequence of"; "characters."]%string.
Proof. split; reflexivity. Qed.

(** ** Cards as rank and suit *)

Lemma getRank_firstn (card : jsstring) :
  getRank card = firstn (length card - 1) card.
Proof.
  unfold getRank, slice, rel_index.
  change (0 <? 0)%Z with false. change (-1 <? 0)%Z with true. cbv iota.
  change (Z.to_nat 0) with 0. rewrite Nat.min_0_l, skipn_0.
  f_equal. lia.
Qed.

Lemma getSuit_skipn (card : jsstring) :
  getSuit card = skipn (length card - 1) card.
Proof.
  unfold getSuit, slice_from, rel_index.
  change (-1 <? 0)%Z with true. cbv iota. f_equal. lia.
Qed.

Lemma rank_suit_roundtrip_parts (card : jsstring) :
  getRank card ++ getSuit card = card /\
  length (getRank card) = length card - 1.
Proof.
  split.
  - rewrite getRank_firstn, getSuit_skipn. apply firstn_skipn.
  - rewrite getRank_firstn, length_firstn. lia.
Qed.

(** X8: [getRank] and [getSuit] cut a token in two without loss: the rank
    part followed by the suit part is the token, and the suit part is its
    last code unit, or empty for the empty token. *)
Theorem rank_suit_roundtrip (card : jsstring) :
  getRank card ++ getSuit card = card /\
  length (getSuit card) = Nat.min 1 (length card) /\
  length (getRank card) = length card - 1.
Proof.
  split; [|split].
  - rewrite getRank_firstn, getSuit_skipn. apply firstn_skipn.
  - apply length_getSuit.
  - rewrite getRank_firstn, length_firstn. lia.
Qed.

(** ** What the frequency tables hold *)

Lemma occ_rankArray (hand : list jsstring) (r : jsstring) :
  occ (rankArray hand) r =
  if in_dec jsstring_eq_dec r ranks then occ (map getRank hand) r else 0.
Proof. rewrite rankArray_canon. apply occ_grouped, NoDup_ranks. Qed.

Lemma occ_suitArray (hand : list jsstring) (s : jsstring) :
  occ (suitArray hand) s = occ (map getSuit (filter known_rank hand)) s.
Proof.
  unfold occ. apply Permutation_count_occ.
  rewrite suitArray_eq. apply Permutation_map, sortedHand_perm.
Qed.


Lemma count_keys_ranks (hand : list jsstring) (n : nat) :
  n <> 0 ->
  length (filter (fun key => eq_num (get (countRanks hand) key) n)
                 (keys (countRanks hand))) =
  ranks_held n hand.
Proof.
  intros Hn. unfold ranks_held. apply Permutation_length, NoDup_Permutation.
  - apply NoDup_filter, NoDup_keys, NoDup_keys_tally.
  - apply NoDup_filter, NoDup_ranks.
  - intros r. rewrite !filter_In. unfold countRanks.
    rewrite (get_tally_eq (rankArray hand) r Hn), Nat.eqb_eq, occ_rankArray.
    rewrite in_keys, in_keys_tally.
    destruct (in_dec jsstring_eq_dec r ranks) as [Hr|Hr].
    + split; [tauto|]. intros [_ H]. split; [|exact H].
      apply (count_occ_In jsstring_eq_dec). fold (occ (rankArray hand) r).
      rewrite occ_rankArray.
      destruct (in_dec jsstring_eq_dec r ranks); [lia|contradiction].
    + split; [intros [_ H]; congruence|tauto].
Qed.

(** X10: [isFourOfKind], [isThreeOfKind] and [isPairs] return the number
    of canonical ranks of which the hand holds exactly four, three and two
    cards; tokens of another rank are not counted. *)
Theorem multiplicity_counts (hand : list jsstring) :
  isFourOfKind hand = ranks_held 4 hand /\
  isThreeOfKind hand = ranks_held 3 hand /\
  isPairs hand = ranks_held 2 hand.
Proof.
  repeat split; apply count_keys_ranks; discriminate.
Qed.

(** ** The straight and flush tests on hands of any size *)

Lemma indexOf_head (hand : list jsstring) :
  (indexOf ranks (nth_error (rankArray hand) 0) = -1 /\ rankArray hand = [])%Z \/
  exists r l, rankArray hand = r :: l /\ In r ranks.
Proof.
  pose proof (@in_rankArray hand) as Hin.
  destruct (rankArray hand) as [|r l]; [left; split; reflexivity|].
  right. exists r, l. split; [reflexivity|]. apply Hin. left; reflexivity.
Qed.

(** X11: whatever the number of cards, the straight test holds exactly
    when the canonical ranks of the hand, in order, are the wheel or a
    window of ranks that is five long or runs into the Ace: besides the
    nine and one five-card straights, the runs J-Q-K-A, Q-K-A, K-A and A
    alone, and the hand with no card of canonical rank. *)
Theorem straight_test_any_size (hand : list jsstring) :
  isStraight hand = true <->
  rankArray hand = wheel \/
  exists i, i <= 13 /\ rankArray hand = firstn 5 (skipn i ranks).
Proof.
  rewrite isStraight_iff. split.
  - intros [E|[E|E]].
    + destruct (rankArray_not_akqj10 hand E).
    + left; exact E.
    + right. destruct (indexOf_head hand) as [[Hi Hnil]|[r [l [Hr Hin]]]].
      * exists 13. split; [lia|]. rewrite Hnil. reflexivity.
      * rewrite Hr in E. simpl nth_error in E.
        rank_cases Hin; subst r; vm_compute in E; rewrite Hr; injection E as ->;
          [exists 0|exists 1|exists 2|exists 3|exists 4|exists 5|exists 6
          |exists 7|exists 8|exists 9|exists 10|exists 11|exists 12];
          (split; [lia|reflexivity]).
  - intros [E|[i [Hi E]]]; [tauto|]. right; right. rewrite E.
    assert (Hcases : i = 0 \/ i = 1 \/ i = 2 \/ i = 3 \/ i = 4 \/ i = 5 \/
                     i = 6 \/ i = 7 \/ i = 8 \/ i = 9 \/ i = 10 \/ i = 11 \/
                     i = 12 \/ i = 13) by lia.
    clear Hi E.
    repeat (destruct Hcases as [->|Hcases]); [..|subst i]; reflexivity.
Qed.

(** X12: a hand none of whose tokens has a canonical rank, the empty hand
    in particular, is classified as Straight. *)
Theorem no_card_is_straight (hand : list jsstring) :
  Forall (fun c => known_rank c = false) hand ->
  getPokerHandRank hand = PokerRank.Straight.
Proof.
  intros H.
  assert (E : filter known_rank hand = []).
  { induction H as [|c l Hc _ IH]; simpl; [reflexivity|].
    rewrite Hc. exact IH. }
  rewrite (sorted_depends hand []); [reflexivity|].
  rewrite sortedHand_known, E. reflexivity.
Qed.

Lemma no_card_is_straight_witness :
  Forall (fun c => known_rank c = false) [card "1" spade; card "11" heart] /\
  getPokerHandRank [card "1" spade; card "11" heart] = PokerRank.Straight.
Proof.
  assert (H : Forall (fun c => known_rank c = false)
                     [card "1" spade; card "11" heart])
    by (repeat constructor).
  split; [exact H | exact (no_card_is_straight H)].
Defined.

(** X13: the flush test holds exactly when some suit is that of exactly
    five of the cards of canonical rank; so it fails on fewer than five
    such cards, and on six cards of one suit. *)
Theorem flush_test_any_size (hand : list jsstring) :
  (isFlush hand = true <->
   exists s, occ (map getSuit (filter known_rank hand)) s = 5) /\
  (isFlush hand = true -> 5 <= length (filter known_rank hand)).
Proof.
  assert (H : isFlush hand = true <->
              exists s, occ (map getSuit (filter known_rank hand)) s = 5).
  { rewrite isFlush_iff. split; intros [s Hs]; exists s;
      [rewrite <- occ_suitArray | rewrite occ_suitArray]; exact Hs. }
  split; [exact H|].
  intros Hf. apply H in Hf. destruct Hf as [s Hs].
  rewrite <- (length_map getSuit), <- Hs. apply count_occ_bound.
Qed.

(** ** The categories in terms of the cards held *)

Lemma ranks_held_pos (n : nat) (hand : list jsstring) :
  ranks_held n hand <> 0 <->
  exists r, In r ranks /\ occ (map getRank hand) r = n.
Proof.
  unfold ranks_held. split.
  - destruct (filter _ ranks) as [|r l] eqn:E; [simpl; congruence|].
    intros _. exists r. rewrite <- Nat.eqb_eq.
    apply (filter_In (fun r => Nat.eqb (occ (map getRank hand) r) n)).
    rewrite E. left; reflexivity.
  - intros [r [Hr Ho]] Hz. apply length_zero_iff_nil in Hz.
    assert (Hin : In r (filter (fun r => Nat.eqb (occ (map getRank hand) r) n) ranks))
      by (apply filter_In; split; [exact Hr|apply Nat.eqb_eq, Ho]).
    rewrite Hz in Hin. destruct Hin.
Qed.

Lemma held_weight (hand : list jsstring) :
  4 * ranks_held 4 hand + 3 * ranks_held 3 hand + 2 * ranks_held 2 hand <=
  length hand.
Proof.
  rewrite <- !count_keys_ranks by discriminate. apply counts_weight.
Qed.

Lemma straight_held (hand : list jsstring) :
  isStraight hand = true ->
  ranks_held 4 hand = 0 /\ ranks_held 3 hand = 0 /\ ranks_held 2 hand = 0.
Proof.
  intros Hs. apply isStraight_NoDup, NoDup_counts in Hs.
  rewrite <- !count_keys_ranks by discriminate. exact Hs.
Qed.

Lemma rank_by_held (hand : list jsstring) :
  getPokerHandRank hand =
  if isStraight hand && isFlush hand then PokerRank.StraightFlush
  else if truthy_num (ranks_held 4 hand) then PokerRank.FourOfKind
  else if truthy_num (ranks_held 3 hand) && Nat.eqb (ranks_held 2 hand) 1
       then PokerRank.FullHouse
  else if isFlush hand then PokerRank.Flush
  else if isStraight hand then PokerRank.Straight
  else if truthy_num (ranks_held 3 hand) then PokerRank.ThreeOfKind
  else if Nat.eqb (ranks_held 2 hand) 2 then PokerRank.TwoPairs
  else if Nat.eqb (ranks_held 2 hand) 1 then PokerRank.OnePair
  else PokerRank.HighCard.
Proof.
  rewrite <- !count_keys_ranks by discriminate. reflexivity.
Qed.

Ltac held_cases hand :=
  let Hs := fresh "Hs" in
  let Hst := fresh "Hst" in
  pose proof (held_weight hand) as ?;
  pose proof (@straight_held hand) as Hst;
  rewrite (rank_by_held hand); unfold truthy_num; unfold_ranks;
  destruct (isStraight hand) eqn:Hs;
  [destruct (Hst eq_refl) as [? [? ?]]|clear Hst];
  destruct (isFlush hand) eqn:?;
  destruct (Nat.eqb_spec (ranks_held 4 hand) 0);
  destruct (Nat.eqb_spec (ranks_held 3 hand) 0);
  destruct (Nat.eqb_spec (ranks_held 2 hand) 1);
  destruct (Nat.eqb_spec (ranks_held 2 hand) 2);
  simpl.

(** X14: whatever the number of cards, FourOfKind is returned exactly when
    the hand holds exactly four cards of some canonical rank. *)
Theorem four_of_kind_iff (hand : list jsstring) :
  getPokerHandRank hand = PokerRank.FourOfKind <->
  exists r, In r ranks /\ occ (map getRank hand) r = 4.
Proof.
  rewrite <- ranks_held_pos.
  held_cases hand; split; intros; try discriminate; try lia; try reflexivity.
Qed.

(** X15: on at most five cards, FullHouse is returned exactly when the
    hand holds three cards of one canonical rank and two of another. *)
Theorem full_house_iff (hand : list jsstring) :
  length hand <= 5 ->
  (getPokerHandRank hand = PokerRank.FullHouse <->
   exists r3 r2,
     In r3 ranks /\ In r2 ranks /\
     occ (map getRank hand) r3 = 3 /\ occ (map getRank hand) r2 = 2).
Proof.
  intros Hlen.
  assert (Hex : (exists r3 r2,
     In r3 ranks /\ In r2 ranks /\
     occ (map getRank hand) r3 = 3 /\ occ (map getRank hand) r2 = 2) <->
     ranks_held 3 hand <> 0 /\ ranks_held 2 hand <> 0).
  { rewrite !ranks_held_pos. split.
    - intros [r3 [r2 [H3 [H2 [E3 E2]]]]]. split; eauto.
    - intros [[r3 [H3 E3]] [r2 [H2 E2]]]. exists r3, r2. auto. }
  rewrite Hex.
  held_cases hand; split; intros; try discriminate; try lia; try reflexivity.
Qed.

Lemma full_house_iff_witness :
  length full_house <= 5 /\
  (getPokerHandRank full_house = PokerRank.FullHouse <->
   exists r3 r2,
     In r3 ranks /\ In r2 ranks /\
     occ (map getRank full_house) r3 = 3 /\
     occ (map getRank full_house) r2 = 2).
Proof.
  assert (H : length full_house <= 5) by (simpl; lia).
  split; [exact H | exact (@full_house_iff full_house H)].
Defined.

(** X16: on at most five cards, ThreeOfKind, TwoPairs and OnePair are
    returned exactly when the cards are not all of one suit and the hand
    holds, in turn, three cards of one rank and no two of another, two
    cards of each of two ranks, and two cards of one rank and no three of
    another. *)
Theorem pair_categories_iff (hand : list jsstring) :
  length hand <= 5 ->
  (getPokerHandRank hand = PokerRank.ThreeOfKind <->
   ranks_held 3 hand = 1 /\ ranks_held 2 hand = 0 /\ isFlush hand = false) /\
  (getPokerHandRank hand = PokerRank.TwoPairs <->
   ranks_held 2 hand = 2 /\ isFlush hand = false) /\
  (getPokerHandRank hand = PokerRank.OnePair <->
   ranks_held 2 hand = 1 /\ ranks_held 3 hand = 0 /\ isFlush hand = false).
Proof.
  intros Hlen.
  held_cases hand; repeat split; intros;
    repeat match goal with H : _ /\ _ |- _ => destruct H end;
    try discriminate; try lia; try reflexivity.
Qed.

Lemma pair_categories_iff_witness :
  length three_of_kind <= 5 /\
  (getPokerHandRank three_of_kind = PokerRank.ThreeOfKind <->
   ranks_held 3 three_of_kind = 1 /\ ranks_held 2 three_of_kind = 0 /\
   isFlush three_of_kind = false).
Proof.
  assert (H : length three_of_kind <= 5) by (simpl; lia).
  split; [exact H | exact (proj1 (@pair_categories_iff three_of_kind H))].
Defined.

(** ** Five cards of one rank *)

(** X17: five tokens of one canonical rank, which no deck holds, are no
    category of their own: they are Flush when the five suits are equal
    and HighCard otherwise. *)
Theorem five_of_one_rank (hand : list jsstring) (r : jsstring) :
  five_ranked hand ->
  Forall (fun c => getRank c = r) hand ->
  getPokerHandRank hand =
  if isFlush hand then PokerRank.Flush else PokerRank.HighCard.
Proof.
  intros [Hlen Hall] Hr.
  assert (Hin : In r ranks).
  { destruct hand as [|c hand]; [discriminate Hlen|].
    inversion Hr as [|? ? Hc _]; inversion Hall as [|? ? Hk _]; subst.
    apply known_rank_iff, Hk. }
  assert (E : rankArray hand = repeat r 5).
  { apply Permutation_repeat. rewrite (rankArray_perm Hall).
    apply (proj2 (Forall_map getRank (fun x => x = r) hand)) in Hr.
    apply occ_all in Hr. unfold occ in Hr. apply count_occ_unique in Hr.
    rewrite length_map, Hlen in Hr. rewrite Hr. reflexivity. }
  assert (Hs : isStraight hand = false /\ isFourOfKind hand = 0 /\
               isThreeOfKind hand = 0 /\ isPairs hand = 0).
  { unfold isStraight, section, ref, isFourOfKind, isThreeOfKind, isPairs,
      countRanks. rewrite E.
    rank_cases Hin; subst r; repeat split; reflexivity. }
  destruct Hs as [Hs [H4 [H3 H2]]].
  unfold getPokerHandRank. rewrite Hs, H4, H3, H2.
  destruct (isFlush hand); reflexivity.
Qed.

Lemma five_of_one_rank_witness :
  five_ranked (repeat (card "7" club) 5) /\
  Forall (fun c => getRank c = lit "7") (repeat (card "7" club) 5) /\
  getPokerHandRank (repeat (card "7" club) 5) = PokerRank.Flush.
Proof.
  assert (H5 : five_ranked (repeat (card "7" club) 5))
    by (split; [reflexivity | repeat constructor]).
  assert (Hr : Forall (fun c => getRank c = lit "7") (repeat (card "7" club) 5))
    by (repeat constructor).
  split; [exact H5|]. split; [exact Hr|].
  exact (five_of_one_rank H5 Hr).
Defined.

(** ** Hands of five different cards *)

Lemma card_determined (c1 c2 : jsstring) :
  getRank c1 = getRank c2 -> getSuit c1 = getSuit c2 -> c1 = c2.
Proof.
  intros Hr Hs.
  rewrite <- (proj1 (rank_suit_roundtrip_parts c1)), <- (proj1 (rank_suit_roundtrip_parts c2)).
  rewrite Hr, Hs. reflexivity.
Qed.

Lemma one_suit_distinct_ranks (hand : list jsstring) (s : jsstring) :
  NoDup hand ->
  Forall (fun c => getSuit c = s) hand ->
  NoDup (map getRank hand).
Proof.
  intros Hnd Hs. apply Finite.Injective_map_NoDup_in; [|exact Hnd].
  rewrite Forall_forall in Hs. intros x y Hx Hy E.
  apply card_determined; [exact E|]. rewrite (Hs x Hx), (Hs y Hy). reflexivity.
Qed.

Lemma one_rank_distinct_suits (hand : list jsstring) (r : jsstring) :
  NoDup hand ->
  Forall (fun c => getRank c = r) hand ->
  NoDup (map getSuit hand).
Proof.
  intros Hnd Hr. apply Finite.Injective_map_NoDup_in; [|exact Hnd].
  rewrite Forall_forall in Hr. intros x y Hx Hy E.
  apply card_determined; [|exact E]. rewrite (Hr x Hx), (Hr y Hy). reflexivity.
Qed.

Lemma distinct_ranks_held (hand : list jsstring) :
  NoDup (map getRank hand) ->
  ranks_held 4 hand = 0 /\ ranks_held 3 hand = 0 /\ ranks_held 2 hand = 0.
Proof.
  intros Hnd.
  assert (H : forall n, 2 <= n -> ranks_held n hand = 0).
  { intros n Hn. destruct (Nat.eq_dec (ranks_held n hand) 0) as [|Hne];
      [assumption|exfalso].
    apply ranks_held_pos in Hne. destruct Hne as [r [_ Hr]].
    pose proof (proj1 (NoDup_count_occ jsstring_eq_dec _) Hnd r) as Hle.
    unfold occ in Hr. lia. }
  repeat split; apply H; lia.
Qed.

(** In a valid hand of different cards no rank is held five times: there
    are four suits only. *)
Lemma at_most_four (hand : list jsstring) (r : jsstring) :
  valid_hand hand -> NoDup hand -> occ (map getRank hand) r <= 4.
Proof.
  intros [Hlen Hv] Hnd.
  pose proof (count_occ_bound jsstring_eq_dec r (map getRank hand)) as Hb.
  rewrite length_map, Hlen in Hb. fold (occ (map getRank hand) r) in Hb.
  destruct (Nat.eq_dec (occ (map getRank hand) r) 5) as [E|]; [exfalso|lia].
  replace 5 with (length (map getRank hand)) in E
    by (rewrite length_map; exact Hlen).
  apply occ_all in E.
  apply (proj1 (Forall_map getRank (fun x => x = r) hand)) in E.
  pose proof (one_rank_distinct_suits Hnd E) as Hs.
  assert (Hle : length (map getSuit hand) <= length suits).
  { apply NoDup_incl_length; [exact Hs|].
    intros s Hin. apply in_map_iff in Hin. destruct Hin as [c [<- Hc]].
    rewrite Forall_forall in Hv. destruct (Hv c Hc) as [_ Hk].
    unfold known_suit in Hk. apply existsb_exists in Hk.
    destruct Hk as [s [Hin E']]. apply streq_eq in E'. subst s. exact Hin. }
  rewrite length_map, Hlen in Hle. simpl in Hle. lia.
Qed.

Lemma held_distinct_ranks (hand : list jsstring) :
  valid_hand hand -> NoDup hand ->
  ranks_held 4 hand = 0 -> ranks_held 3 hand = 0 -> ranks_held 2 hand = 0 ->
  NoDup (map getRank hand).
Proof.
  intros Hv Hnd H4 H3 H2.
  apply (NoDup_count_occ jsstring_eq_dec). intros r.
  pose proof (at_most_four r Hv Hnd) as Hle. unfold occ in Hle.
  destruct (le_lt_dec (count_occ jsstring_eq_dec (map getRank hand) r) 1)
    as [|Hgt]; [assumption|exfalso].
  assert (Hr : In r ranks).
  { assert (Hin : In r (map getRank hand))
      by (apply (count_occ_In jsstring_eq_dec); lia).
    apply in_map_iff in Hin. destruct Hin as [c [<- Hc]].
    destruct Hv as [_ Hv]. rewrite Forall_forall in Hv.
    apply known_rank_iff, (Hv c Hc). }
  assert (Hpos : forall n, count_occ jsstring_eq_dec (map getRank hand) r = n ->
                           ranks_held n hand <> 0).
  { intros n Hn. apply ranks_held_pos. exists r. split; [exact Hr|exact Hn]. }
  assert (Hc : count_occ jsstring_eq_dec (map getRank hand) r = 2 \/
               count_occ jsstring_eq_dec (map getRank hand) r = 3 \/
               count_occ jsstring_eq_dec (map getRank hand) r = 4) by lia.
  destruct Hc as [Hc|[Hc|Hc]]; apply Hpos in Hc; contradiction.
Qed.

(** X18: in a valid hand of five different cards, Flush is returned
    exactly when the suits are equal and the ranks are no straight,
    Straight exactly when the ranks are a straight and the suits are not
    equal, and HighCard exactly when the ranks are all different, are no
    straight, and the suits are not equal. *)
Theorem distinct_cards_categories (hand : list jsstring) :
  valid_hand hand -> NoDup hand ->
  (getPokerHandRank hand = PokerRank.Flush <->
   isFlush hand = true /\ isStraight hand = false) /\
  (getPokerHandRank hand = PokerRank.Straight <->
   isStraight hand = true /\ isFlush hand = false) /\
  (getPokerHandRank hand = PokerRank.HighCard <->
   NoDup (map getRank hand) /\ isStraight hand = false /\ isFlush hand = false).
Proof.
  intros Hv Hnd. pose proof (valid_hand_ranked Hv) as H5.
  assert (Hf : isFlush hand = true ->
               ranks_held 4 hand = 0 /\ ranks_held 3 hand = 0 /\
               ranks_held 2 hand = 0).
  { intros Hf. apply (flush_to_same_suit H5) in Hf. destruct Hf as [s Hs].
    apply distinct_ranks_held, (one_suit_distinct_ranks Hnd Hs). }
  assert (Hn : NoDup (map getRank hand) <->
               ranks_held 4 hand = 0 /\ ranks_held 3 hand = 0 /\
               ranks_held 2 hand = 0).
  { split; [apply distinct_ranks_held|].
    intros [H4 [H3 H2]]. apply held_distinct_ranks; assumption. }
  rewrite Hn. clear Hn. pose proof (proj1 Hv) as Hlen. revert Hf.
  held_cases hand; intros Hf; try (destruct (Hf eq_refl) as [? [? ?]]);
    repeat split; intros;
    repeat match goal with H : _ /\ _ |- _ => destruct H end;
    try discriminate; try lia; try reflexivity.
Qed.

Lemma distinct_cards_categories_witness :
  valid_hand flush_to_queen /\ NoDup flush_to_queen /\
  (getPokerHandRank flush_to_queen = PokerRank.Flush <->
   isFlush flush_to_queen = true /\ isStraight flush_to_queen = false).
Proof.
  assert (Hv : valid_hand flush_to_queen)
    by (split; [reflexivity | repeat constructor]).
  assert (Hnd : NoDup flush_to_queen).
  { apply (NoDup_count_occ' jsstring_eq_dec). intros c Hc.
    vm_compute in Hc.
    repeat (destruct Hc as [<-|Hc]; [reflexivity|]). destruct Hc. }
  split; [exact Hv|]. split; [exact Hnd|].
  exact (proj1 (distinct_cards_categories Hv Hnd)).
Defined.

(** ** Renaming the suits *)

Lemma parts_of_app (r s : jsstring) :
  length s = 1 -> getRank (r ++ s) = r /\ getSuit (r ++ s) = s.
Proof.
  intros Hs. rewrite getRank_firstn, getSuit_skipn, length_app, Hs.
  replace (length r + 1 - 1) with (length r + 0) by lia. split.
  - rewrite firstn_app_2. simpl. apply app_nil_r.
  - rewrite Nat.add_0_r, skipn_app, skipn_all, Nat.sub_diag. reflexivity.
Qed.

Lemma parts_of_resuit (f : N -> N) (c : jsstring) :
  getRank (resuit f c) = getRank c /\
  getSuit (resuit f c) = map f (getSuit c).
Proof.
  unfold resuit. destruct c as [|u c]; [split; reflexivity|].
  apply parts_of_app. rewrite length_map, length_getSuit. reflexivity.
Qed.

Lemma sortedHand_resuit (f : N -> N) (hand : list jsstring) :
  sortedHand (map (resuit f) hand) = map (resuit f) (sortedHand hand).
Proof.
  rewrite !sortedHand_eq, map_flat_map. apply flat_map_ext. intros r.
  rewrite filter_map_swap. f_equal. apply filter_ext. intros c.
  rewrite (proj1 (parts_of_resuit f c)). reflexivity.
Qed.

Lemma rankArray_resuit (f : N -> N) (hand : list jsstring) :
  rankArray (map (resuit f) hand) = rankArray hand.
Proof.
  rewrite !rankArray_eq, sortedHand_resuit, map_map.
  apply map_ext. intros c. apply parts_of_resuit.
Qed.

Lemma suitArray_resuit (f : N -> N) (hand : list jsstring) :
  suitArray (map (resuit f) hand) = map (map f) (suitArray hand).
Proof.
  rewrite !suitArray_eq, sortedHand_resuit, !map_map.
  apply map_ext. intros c. apply parts_of_resuit.
Qed.

Lemma map_injective (f : N -> N) :
  (forall x y, f x = f y -> x = y) ->
  forall a b : jsstring, map f a = map f b -> a = b.
Proof.
  intros Hf. induction a as [|x a IH]; intros [|y b] E; try discriminate E;
    [reflexivity|].
  simpl in E. injection E as Ex E. f_equal; [apply Hf, Ex|apply IH, E].
Qed.

Lemma isFlush_resuit (f : N -> N) (hand : list jsstring) :
  (forall x y, f x = f y -> x = y) ->
  isFlush (map (resuit f) hand) = isFlush hand.
Proof.
  intros Hf. apply eq_true_iff_eq. rewrite !isFlush_iff, suitArray_resuit.
  unfold occ. split.
  - intros [s' Hs'].
    assert (Hin : In s' (map (map f) (suitArray hand)))
      by (apply (count_occ_In jsstring_eq_dec); lia).
    apply in_map_iff in Hin. destruct Hin as [s [<- _]]. exists s.
    rewrite (count_occ_map (map f) jsstring_eq_dec jsstring_eq_dec
               (map_injective f Hf)). exact Hs'.
  - intros [s Hs]. exists (map f s).
    rewrite <- (count_occ_map (map f) jsstring_eq_dec jsstring_eq_dec
                  (map_injective f Hf)). exact Hs.
Qed.

(** X19: the category does not depend on which suit is which: replacing
    the suit code units by their images under a one-to-one function
    leaves the category of every hand unchanged. *)
Theorem suits_are_interchangeable (f : N -> N) (hand : list jsstring) :
  (forall x y, f x = f y -> x = y) ->
  getPokerHandRank (map (resuit f) hand) = getPokerHandRank hand.
Proof.
  intros Hf. apply rank_depends.
  - apply rankArray_resuit.
  - apply isFlush_resuit, Hf.
Qed.

Lemma suits_are_interchangeable_witness :
  (forall x y : N, N.succ x = N.succ y -> x = y) /\
  getPokerHandRank (map (resuit N.succ) wheel_flush) =
  getPokerHandRank wheel_flush.
Proof.
  assert (H : forall x y : N, N.succ x = N.succ y -> x = y)
    by (intros x y E; lia).
  split; [exact H | exact (suits_are_interchangeable N.succ wheel_flush H)].
Defined.

(** ** The sorting stage as a stable sort *)

Lemma filter_filter_comm {A : Type} (p q : A -> bool) (l : list A) :
  filter p (filter q l) = filter q (filter p l).
Proof.
  induction l as [|x l IH]; simpl; [reflexivity|].
  destruct (p x) eqn:Ep, (q x) eqn:Eq; simpl; rewrite ?Ep, ?Eq, IH; reflexivity.
Qed.

Lemma filter_none {A : Type} (p : A -> bool) (l : list A) :
  (forall x, In x l -> p x = false) -> filter p l = [].
Proof.
  induction l as [|x l IH]; intros H; simpl; [reflexivity|].
  rewrite (H x (or_introl eq_refl)). apply IH. intros y Hy. apply H. right; exact Hy.
Qed.

Lemma filter_rank_grouped (rs hand : list jsstring) (r : jsstring) :
  NoDup rs -> In r rs ->
  filter (fun c => streq r (getRank c))
         (flat_map (fun r' => filter (fun c => streq r' (getRank c)) hand) rs) =
  filter (fun c => streq r (getRank c)) hand.
Proof.
  induction 1 as [|r' rs Hnotin Hnd IH]; intros Hin; [destruct Hin|].
  simpl. rewrite filter_app. destruct (jsstring_eq_dec r' r) as [->|Hne].
  - assert (Hn : filter (fun c => streq r (getRank c))
                   (flat_map (fun r' => filter (fun c => streq r' (getRank c)) hand) rs)
                 = []).
    { apply filter_none. intros c Hc. apply in_flat_map in Hc.
      destruct Hc as [x [Hx Hc]]. apply filter_In in Hc. destruct Hc as [_ Hc].
      apply streq_eq in Hc. apply streq_neq. intros E.
      apply Hnotin. rewrite E, <- Hc. exact Hx. }
    rewrite Hn, app_nil_r. apply filter_filter_same. auto.
  - destruct Hin as [Hin|Hin]; [contradiction|].
    rewrite IH by exact Hin.
    assert (Hn : filter (fun c => streq r (getRank c))
                   (filter (fun c => streq r' (getRank c)) hand) = []).
    { apply filter_none. intros c Hc. apply filter_In in Hc.
      destruct Hc as [_ Hc]. apply streq_eq in Hc. apply streq_neq. congruence. }
    rewrite Hn. reflexivity.
Qed.

(** X20: [sortedHand] is a stable sort of the cards of canonical rank: it
    holds exactly those cards, each as often as the hand does, in
    ascending order of rank, and the cards of one rank in the order in
    which the hand has them. *)
Theorem sortedHand_stable_sort (hand : list jsstring) :
  Permutation (sortedHand hand) (filter known_rank hand) /\
  StronglySorted rank_le (map getRank (sortedHand hand)) /\
  (forall r, In r ranks ->
     filter (fun c => streq r (getRank c)) (sortedHand hand) =
     filter (fun c => streq r (getRank c)) hand).
Proof.
  split; [apply sortedHand_perm|]. split.
  - rewrite <- rankArray_eq. apply sorted_rankArray.
  - intros r Hr. rewrite sortedHand_eq.
    apply filter_rank_grouped; [apply NoDup_ranks|exact Hr].
Qed.

(** ** The order of the keys of the rank table *)

Lemma keys_fold_repeat (r : jsstring) (k : nat) (o : object) :
  map fst
    (fold_left (fun previousValue currentValue =>
                  set previousValue currentValue
                      (or0 (get previousValue currentValue) + 1))
               (repeat r k) o) =
  match k, get o r with
  | S _, None => map fst o ++ [r]
  | _, _ => map fst o
  end.
Proof.
  revert o; induction k as [|k IH]; intros o; simpl.
  - destruct (get o r); reflexivity.
  - rewrite IH, get_set_same, keys_set.
    destruct k; destruct (get o r); reflexivity.
Qed.

Lemma keys_tally_grouped (n : jsstring -> nat) (rs : list jsstring) :
  NoDup rs ->
  map fst (tally (flat_map (fun r => repeat r (n r)) rs)) =
  filter (fun r => negb (Nat.eqb (n r) 0)) rs.
Proof.
  induction rs as [|r rs IH] using rev_ind; intros Hnd; [reflexivity|].
  apply NoDup_remove in Hnd. rewrite !app_nil_r in Hnd. destruct Hnd as [Hnd Hr].
  rewrite flat_map_app, filter_app. simpl. rewrite app_nil_r.
  unfold tally. rewrite fold_left_app. fold (tally (flat_map (fun r => repeat r (n r)) rs)).
  rewrite keys_fold_repeat, (IH Hnd).
  assert (Hg : get (tally (flat_map (fun r => repeat r (n r)) rs)) r = None).
  { apply get_None_iff. rewrite in_keys_tally, in_flat_map.
    intros [x [Hx Hin]]. apply repeat_spec in Hin. subst x. contradiction. }
  rewrite Hg. destruct (n r); simpl; [rewrite app_nil_r|]; reflexivity.
Qed.

Lemma index_keys_filter (p : jsstring -> bool) (l : list jsstring) :
  index_keys (filter p l) = filter (fun e => p (snd e)) (index_keys l).
Proof.
  unfold index_keys. induction l as [|k l IH]; simpl; [reflexivity|].
  destruct (p k) eqn:Ep; simpl; rewrite IH;
    destruct (array_index k); simpl; rewrite ?Ep; reflexivity.
Qed.

Lemma sort_index_sorted (l : list (N * jsstring)) :
  StronglySorted (fun a b => (fst a <= fst b)%N) l ->
  fold_right insert_index [] l = l.
Proof.
  induction 1 as [|e l _ IH Hall]; simpl; [reflexivity|].
  rewrite IH. destruct l as [|e' l]; [reflexivity|].
  inversion Hall as [|? ? He _]; subst. simpl.
  rewrite (proj2 (N.leb_le _ _) He). reflexivity.
Qed.

Lemma sorted_filter {A : Type} (R : A -> A -> Prop) (p : A -> bool) (l : list A) :
  StronglySorted R l -> StronglySorted R (filter p l).
Proof.
  induction 1 as [|x l _ IH Hall]; simpl; [constructor|].
  destruct (p x); [|exact IH]. constructor; [exact IH|].
  rewrite Forall_forall in *. intros y Hy. apply filter_In in Hy.
  apply Hall, Hy.
Qed.

Lemma keys_of_ranks (p : jsstring -> bool) (o : object) :
  map fst o = filter p ranks -> keys o = filter p ranks.
Proof.
  intros E. unfold keys. rewrite E, index_keys_filter, filter_filter_comm.
  rewrite sort_index_sorted.
  - replace (map snd (filter (fun e => p (snd e)) (index_keys ranks)))
      with (filter p (map snd (index_keys ranks))).
    + rewrite <- filter_app. reflexivity.
    + generalize (index_keys ranks) as l.
      induction l as [|e l IH]; simpl; [reflexivity|].
      destruct (p (snd e)); simpl; rewrite IH; reflexivity.
  - apply sorted_filter. vm_compute.
    repeat (constructor; [|repeat (constructor; [try discriminate|])]).
    all: constructor.
Qed.

(** X21: [Object.keys(countRanks)] lists the canonical ranks that the
    hand holds, each once, in canonical order, the numeric keys "2" to
    "10" and the letter keys alike. *)
Theorem rank_keys_in_order (hand : list jsstring) :
  keys (countRanks hand) =
  filter (fun r => negb (Nat.eqb (occ (map getRank hand) r) 0)) ranks.
Proof.
  apply keys_of_ranks. unfold countRanks. rewrite rankArray_canon.
  apply keys_tally_grouped, NoDup_ranks.
Qed.
